(** * Gemini image-generation helper: credential lookup and image saving

    A shallow embedding of [skills/gemini-image-gen/scripts/generate.py]
    and the properties its specification states about it.

    Python values are rendered as follows.
    - [str] is [string]; a character is a code point below 256.
    - [bytes] is [list Byte.byte].
    - [Optional[T]] is [option T]; truthiness tests are written out.
    - [pathlib.Path] is a pair of an "absolute" flag and the list of path
      components (pathlib's own lexical normal form).
    - [os.environ] is a [gmap string string]; the files written by the
      script are a [gmap] from paths to contents, the directories it creates
      a [gset] of paths.
    - Exceptions are an [outcome]: a computation either returns a value or
      raises; [try]/[except Exception] is [try_catch].
    - Every interaction with the outside (environment reads, file probes,
      prints, the service request, clock reads, directory creation, file
      writes) is appended to a trace of events, in program order. *)

From Stdlib Require Import String Ascii List Arith Lia Bool DecimalString DecimalNat.
From stdpp Require Import base gmap sets list strings.

(** ** Python string primitives *)

Module PyStr.

(** The double-quote character. *)
Definition dquote : ascii := "034"%char.

(** The single-quote character. *)
Definition squote : ascii := "039"%char.

(** [str.isspace] on one character, for code points below 256:
    TAB, LF, VT, FF, CR (9-13), FS, GS, RS, US (28-31), space (32),
    NEL (133) and NBSP (160). *)
Definition isspace (c : ascii) : bool :=
  let n := nat_of_ascii c in
  (((9 <=? n) && (n <=? 13)) || ((28 <=? n) && (n <=? 32))
   || (n =? 133) || (n =? 160))%nat.

(** Membership of a character in the [chars] argument of [str.strip]. *)
Fixpoint mem (c : ascii) (chars : string) : bool :=
  match chars with
  | EmptyString => false
  | String d chars' => Ascii.eqb c d || mem c chars'
  end.

(** [str.lstrip]: drop the longest prefix of characters satisfying [p]. *)
Fixpoint lstrip_by (p : ascii -> bool) (s : string) : string :=
  match s with
  | EmptyString => EmptyString
  | String c s' => if p c then lstrip_by p s' else s
  end.

(** [str.rstrip]: drop the longest suffix of characters satisfying [p]. *)
Fixpoint rstrip_by (p : ascii -> bool) (s : string) : string :=
  match s with
  | EmptyString => EmptyString
  | String c s' =>
      match rstrip_by p s' with
      | EmptyString => if p c then EmptyString else String c EmptyString
      | r => String c r
      end
  end.

Definition strip_by (p : ascii -> bool) (s : string) : string :=
  rstrip_by p (lstrip_by p s).

(** [s.strip()] *)
Definition strip (s : string) : string := strip_by isspace s.

(** [s.strip(chars)] *)
Definition strip_chars (chars : string) (s : string) : string :=
  strip_by (fun c => mem c chars) s.

(** [s.startswith(p)] *)
Definition startswith (s p : string) : bool := String.prefix p s.

(** [s.startswith((p1, p2, ...))] *)
Definition startswith_any (s : string) (ps : list string) : bool :=
  existsb (startswith s) ps.

(** [s.split(sep, 1)] for a one-character separator: either [[s]] when
    the separator does not occur, or the two pieces around its first
    occurrence. *)
Fixpoint split1 (sep : ascii) (s : string) : list string :=
  match s with
  | EmptyString => [EmptyString]
  | String c s' =>
      if Ascii.eqb c sep then [EmptyString; s']
      else match split1 sep s' with
           | hd :: tl => String c hd :: tl
           | [] => []
           end
  end.

(** [s.split(sep)] for a one-character separator. *)
Fixpoint split (sep : ascii) (s : string) : list string :=
  match s with
  | EmptyString => [EmptyString]
  | String c s' =>
      if Ascii.eqb c sep then EmptyString :: split sep s'
      else match split sep s' with
           | hd :: tl => String c hd :: tl
           | [] => []
           end
  end.

(** [str(n)] for a non-negative integer: decimal, no leading zeros. *)
Definition of_nat (n : nat) : string :=
  NilEmpty.string_of_uint (Nat.to_uint n).

(** Truthiness of a string: non-empty. *)
Definition nonempty (s : string) : bool :=
  match s with EmptyString => false | _ => true end.

(** Truthiness of an [Optional[str]]: neither [None] nor empty. *)
Definition truthy (o : option string) : bool :=
  match o with Some s => nonempty s | None => false end.

End PyStr.

(** ** Paths *)

Abbreviation path := (bool * list string)%type.
Abbreviation bytes := (list Byte.byte).

Module PyPath.

(** [Path(s)]: split on the slash, drop empty and [.] components; the
    path is absolute when [s] starts with a slash. *)
Definition keep_component (c : string) : bool :=
  negb (String.eqb c "") && negb (String.eqb c ".").

Definition Path (s : string) : path :=
  (PyStr.startswith s "/", List.filter keep_component (PyStr.split "/" s)).

(** [p.parent]: drop the last component; the root and [.] are their own
    parents. *)
Definition parent (p : path) : path := (p.1, removelast p.2).

(** [p / name] for a name without slashes. *)
Definition div (p : path) (name : string) : path := (p.1, p.2 ++ [name]).

(** The path itself and all its ancestors, as [mkdir(parents=True)]
    visits them. *)
Definition ancestors (p : path) : list path :=
  map (fun n => (p.1, firstn n p.2)) (seq 0 (S (length p.2))).

End PyPath.

(** ** The outside world *)

(** A Python exception (an instance of a subclass of [Exception]): class
    name and message. *)
Inductive exn := PyExn (cls : string) (detail : string).

(** A computation returns a value or raises. *)
Inductive outcome (A : Type) :=
| Val (a : A)
| Raise (e : exn).
Arguments Val {A} a.
Arguments Raise {A} e.

(** What a candidate [.env] location holds.  [Readable ls tail] is a file
    whose line iterator yields the lines [ls] and then, when [tail] is
    [Some e], raises [e] instead of ending (a decoding or I/O error in
    the middle of the file). *)
Inductive file_state :=
| Missing
| OpenFails (e : exn)
| Readable (ls : list string) (tail : option exn).

(** [google.genai.types.Modality] *)
Inductive modality := IMAGE | TEXT.

(** One part of a candidate's content: the two attributes the script
    inspects.  [inline_data] is the blob's [data]. *)
Record part := {
  inline_data : option bytes;
  text : option string
}.

(** A candidate; [content] is [None] when the candidate carries no
    content (the attribute access on it then raises). *)
Record candidate := { content : option (list part) }.

Record response := { candidates : option (list candidate) }.

(** The arguments of [client.models.generate_content], with the key the
    client was built with. *)
Record request := {
  req_api_key : string;
  req_model : string;
  req_contents : string;
  req_modalities : list modality
}.

(** [datetime.now()] *)
Record datetime := {
  year : nat; month : nat; day : nat;
  hour : nat; minute : nat; second : nat
}.

(** The file-system operations of the script that change the disk. *)
Inductive fs_op :=
| OpMkdir (p : path)
| OpWrite (p : path).

(** What the run does not control.  When the write of a file raises,
    [torn] tells how far it got: [None] when [open] itself raised and the
    disk is as before, [Some n] when the file was opened (created or
    truncated) and the first [n] bytes reached it. *)
Record host := {
  environ : gmap string string;         (* os.environ *)
  script_file : path;                   (* Path(__file__) *)
  stored : path -> file_state;          (* what sits at the candidate .env paths *)
  unsearchable : path -> bool;          (* directories without search permission *)
  service : request -> outcome response;(* the remote service, client included *)
  clock : nat -> datetime;              (* the k-th reading of the clock *)
  fault : fs_op -> option exn;          (* which disk operations raise *)
  torn : path -> option nat             (* how far a failing write got *)
}.

(** A path cannot be reached when a directory above it may not be
    searched: [stat] and [open] on it fail with [EACCES]. *)
Definition blocked (h : host) (p : path) : bool :=
  existsb (unsearchable h) (PyPath.ancestors (PyPath.parent p)).

(** The [PermissionError] of such a path (its message without the
    path name). *)
Definition permission_denied : exn :=
  PyExn "PermissionError" "[Errno 13] Permission denied".

(** What opening a path for reading meets. *)
Definition readfs (h : host) (p : path) : file_state :=
  if blocked h p then OpenFails permission_denied else stored h p.

(** The four places a key is looked for. *)
Inductive source := EnvGoogle | EnvGemini | SkillEnvFile | ProjectEnvFile.

(** The lines the script prints, one constructor per [print] call. *)
Inductive message :=
| MsgSearching                          (* Searching for API key... *)
| MsgKeyInEnv (name : string)           (* API key found in NAME environment *)
| MsgKeyInSkillDir (p : path)           (* API key found in skill directory: P *)
| MsgKeyInProjectDir (p : path)         (* API key found in project directory: P *)
| MsgReadWarning (p : path) (e : exn)   (* Warning: Error reading P: E *)
| MsgKeyNotFound                        (* API key not found! *)
| MsgGuidanceIntro                      (* Please set your API key in one of these locations: *)
| MsgGuidance (s : source)              (* 1. .. 4., one line per source *)
| MsgGetKeyUrl                          (* Get your API key at: ... *)
| MsgGenerating                         (* Generating image with Gemini... *)
| MsgModel (m : string)                 (* Model: M *)
| MsgPrompt (p : string)                (* Prompt: P *)
| MsgModalities (ms : list modality)    (* Modalities: ... *)
| MsgNoCandidates                       (* No candidates in response *)
| MsgImageSaved (p : path)              (* Image saved: P *)
| MsgTextHeader                         (* Generated text: *)
| MsgText (t : string)                  (* one generated text, indented *)
| MsgNoImages                           (* No images generated *)
| MsgSuccess (n : nat)                  (* Successfully generated N image(s) *)
| MsgError (e : exn).                   (* Error generating image: E *)

Inductive event :=
| EGetenv (name : string)
| EExists (p : path)
| EOpenRead (p : path)
| EPrint (m : message)
| ERequest (r : request)
| ENow
| EMkdir (p : path)
| EWrite (p : path) (data : bytes).

(** What the run changes: the clock readings taken so far, the files
    written, the directories created, and the trace of events. *)
Record state := {
  ticks : nat;
  files : gmap path bytes;
  dirs : gset path;
  trace : list event
}.

Definition add_event (e : event) (s : state) : state :=
  {| ticks := ticks s; files := files s; dirs := dirs s;
     trace := trace s ++ [e] |}.

Definition add_tick (s : state) : state :=
  {| ticks := S (ticks s); files := files s; dirs := dirs s;
     trace := trace s |}.

Definition add_dirs (ds : list path) (s : state) : state :=
  {| ticks := ticks s; files := files s; dirs := dirs s ∪ list_to_set ds;
     trace := trace s |}.

Definition put_file (p : path) (data : bytes) (s : state) : state :=
  {| ticks := ticks s; files := <[p := data]> (files s); dirs := dirs s;
     trace := trace s |}.

(** ** The monad of the script: reader of the host, state, exceptions *)

Definition M (A : Type) : Type := host -> state -> outcome A * state.

Definition ret {A} (a : A) : M A := fun _ s => (Val a, s).

Definition bind {A B} (m : M A) (k : A -> M B) : M B :=
  fun h s =>
    match m h s with
    | (Val a, s') => k a h s'
    | (Raise e, s') => (Raise e, s')
    end.

Definition raise {A} (e : exn) : M A := fun _ s => (Raise e, s).

(** [try: m except Exception as e: handler e] *)
Definition try_catch {A} (m : M A) (handler : exn -> M A) : M A :=
  fun h s =>
    match m h s with
    | (Val a, s') => (Val a, s')
    | (Raise e, s') => handler e h s'
    end.

Notation "'let*' x ':=' m 'in' k" := (bind m (fun x => k))
  (at level 10, x name, m at level 100, k at level 200).

Definition emit (e : event) : M unit := fun _ s => (Val tt, add_event e s).

Definition print (m : message) : M unit := emit (EPrint m).

(** [os.getenv(name)] *)
Definition getenv (name : string) : M (option string) :=
  fun h s => (Val (environ h !! name), add_event (EGetenv name) s).

(** [p.exists()]: [pathlib] answers [False] when [stat] fails because
    the path is not there, and lets every other [OSError] through; on a
    path that cannot be reached that is a [PermissionError]. *)
Definition path_exists (p : path) : M bool :=
  fun h s =>
    let s' := add_event (EExists p) s in
    if blocked h p then (Raise permission_denied, s')
    else (Val (match readfs h p with Missing => false | _ => true end), s').

(** [open(p, 'r')]: the line iterator of the file, or the error. *)
Definition open_read (p : path) : M (list string * option exn) :=
  fun h s =>
    let s' := add_event (EOpenRead p) s in
    match readfs h p with
    | Missing => (Raise (PyExn "FileNotFoundError" "No such file or directory"), s')
    | OpenFails e => (Raise e, s')
    | Readable ls tail => (Val (ls, tail), s')
    end.

(** ** Credential resolver *)

Definition recognized_prefixes : list string :=
  ["GOOGLE_API_KEY="; "GEMINI_API_KEY="].

(** Lines 93-94: [key = line.split('=', 1)[1].strip()] and
    [key = key.strip(dq).strip(sq)] for the two quote characters. *)
Definition extract_key (line : string) : outcome string :=
  match PyStr.split1 "=" line with
  | _ :: key :: _ =>
      let key := PyStr.strip key in
      let key := PyStr.strip_chars (String PyStr.squote "")
                   (PyStr.strip_chars (String PyStr.dquote "") key) in
      Val key
  | _ => Raise (PyExn "IndexError" "list index out of range")
  end.

(** The body of [for line in f] (lines 89-95) over the lines the iterator
    yields; reaching the end of the iterator leaves the loop. *)
Fixpoint scan_lines (ls : list string) (tail : option exn) : outcome (option string) :=
  match ls with
  | [] =>
      match tail with
      | Some e => Raise e
      | None => Val None
      end
  | raw :: rest =>
      let line := PyStr.strip raw in
      if PyStr.startswith_any line recognized_prefixes then
        match extract_key line with
        | Val key => Val (if PyStr.nonempty key then Some key else None)
        | Raise e => Raise e
        end
      else scan_lines rest tail
  end.

(** The [try] block of [load_env_file] (lines 88-95). *)
Definition load_env_body (env_path : path) : M (option string) :=
  let* f := open_read env_path in
  fun _ s => (scan_lines f.1 f.2, s).

Definition load_env_file (env_path : path) : M (option string) :=
  try_catch (load_env_body env_path)
    (fun e => let* _ := print (MsgReadWarning env_path e) in ret None).

(** Lines 65-74 of [find_api_key]. *)
Definition find_in_project (skill_dir : path) : M (option string) :=
  let project_dir := PyPath.parent (PyPath.parent (PyPath.parent skill_dir)) in
  let project_env := PyPath.div project_dir ".env" in
  let* present := path_exists project_env in
  if present then
    let* api_key := load_env_file project_env in
    if PyStr.truthy api_key then
      let* _ := print (MsgKeyInProjectDir project_env) in ret api_key
    else ret None
  else ret None.

(** Lines 56-63 of [find_api_key], falling through to the project file. *)
Definition find_in_skill : M (option string) :=
  fun h =>
    let skill_dir := PyPath.parent (PyPath.parent (script_file h)) in
    let skill_env := PyPath.div skill_dir ".env" in
    (let* present := path_exists skill_env in
     if present then
       let* api_key := load_env_file skill_env in
       if PyStr.truthy api_key then
         let* _ := print (MsgKeyInSkillDir skill_env) in ret api_key
       else find_in_project skill_dir
     else find_in_project skill_dir) h.

Definition find_api_key : M (option string) :=
  let* api_key := getenv "GOOGLE_API_KEY" in
  if PyStr.truthy api_key then
    let* _ := print (MsgKeyInEnv "GOOGLE_API_KEY") in ret api_key
  else
    let* api_key := getenv "GEMINI_API_KEY" in
    if PyStr.truthy api_key then
      let* _ := print (MsgKeyInEnv "GEMINI_API_KEY") in ret api_key
    else find_in_skill.

(** ** Image request executor *)

(** Two-digit, zero-padded decimal, as [%m], [%d], [%H], [%M], [%S]. *)
Definition pad2 (n : nat) : string :=
  if n <? 10 then "0" +:+ PyStr.of_nat n else PyStr.of_nat n.

(** [dt.strftime('%Y%m%d-%H%M%S')] *)
Definition strftime (dt : datetime) : string :=
  PyStr.of_nat (year dt) +:+ pad2 (month dt) +:+ pad2 (day dt) +:+ "-"
  +:+ pad2 (hour dt) +:+ pad2 (minute dt) +:+ pad2 (second dt).

(** [datetime.now()] *)
Definition now : M datetime :=
  fun h s => (Val (clock h (ticks s)), add_event ENow (add_tick s)).

(** [p.mkdir(parents=True, exist_ok=True)] *)
Definition mkdir_p (p : path) : M unit :=
  fun h s =>
    let s' := add_event (EMkdir p) s in
    match fault h (OpMkdir p) with
    | Some e => (Raise e, s')
    | None => (Val tt, add_dirs (PyPath.ancestors p) s')
    end.

(** What a write at [p] that raised leaves behind.  Mode ['wb'] creates
    or truncates the file when it is opened, before anything is written:
    when the error comes after that, the file holds a leading piece of
    the data (possibly nothing). *)
Definition leave_torn (h : host) (p : path) (data : bytes) (s : state) : state :=
  match torn h p with
  | Some n => put_file p (take n data) s
  | None => s
  end.

(** [with open(p, 'wb') as f: f.write(data)] *)
Definition write_file (p : path) (data : bytes) : M unit :=
  fun h s =>
    let s' := add_event (EWrite p data) s in
    match fault h (OpWrite p) with
    | Some e => (Raise e, leave_torn h p data s')
    | None => (Val tt, put_file p data s')
    end.

(** [genai.Client(api_key=...).models.generate_content(...)] *)
Definition generate_content (r : request) : M response :=
  fun h s => (service h r, add_event (ERequest r) s).

(** Lines 123-125. *)
Definition modalities_of (include_text : bool) : list modality :=
  IMAGE :: (if include_text then [TEXT] else []).

Definition assets_dir : path := PyPath.Path "./docs/assets".

(** [f'gemini-{timestamp}-{i}.png'] *)
Definition default_name (timestamp : string) (i : nat) : string :=
  "gemini-" +:+ timestamp +:+ "-" +:+ PyStr.of_nat i +:+ ".png".

(** Lines 164-168: the destination when no output path is given. *)
Definition default_save_path (i : nat) : M path :=
  let* dt := now in
  let timestamp := strftime dt in
  let* _ := mkdir_p assets_dir in
  ret (PyPath.div assets_dir (default_name timestamp i)).

(** Lines 160-175: the body of the loop for a part carrying image data. *)
Definition save_part (output_path : option string) (i : nat) (data : bytes) : M unit :=
  let* save_path :=
    match output_path with
    | Some o => if PyStr.nonempty o then ret (PyPath.Path o) else default_save_path i
    | None => default_save_path i
    end in
  let* _ := mkdir_p (PyPath.parent save_path) in
  let* _ := write_file save_path data in
  print (MsgImageSaved save_path).

(** Lines 155-175: [for i, part in enumerate(parts)], from index [i] and
    with [image_count] images seen so far; returns the final count. *)
Fixpoint save_images (output_path : option string) (i : nat)
    (parts : list part) (image_count : nat) : M nat :=
  match parts with
  | [] => ret image_count
  | p :: rest =>
      match inline_data p with
      | Some data =>
          let image_count := S image_count in
          let* _ := save_part output_path i data in
          save_images output_path (S i) rest image_count
      | None => save_images output_path (S i) rest image_count
      end
  end.

(** Line 179: [[p.text for p in parts if hasattr(p, 'text') and p.text]] *)
Definition text_parts (parts : list part) : list string :=
  flat_map (fun p => match text p with
                     | Some t => if PyStr.nonempty t then [t] else []
                     | None => []
                     end) parts.

Fixpoint print_texts (ts : list string) : M unit :=
  match ts with
  | [] => ret tt
  | t :: rest => let* _ := print (MsgText t) in print_texts rest
  end.

(** Lines 178-183. *)
Definition print_text (include_text : bool) (parts : list part) : M unit :=
  if include_text then
    match text_parts parts with
    | [] => ret tt
    | ts => let* _ := print MsgTextHeader in print_texts ts
    end
  else ret tt.

(** The [try] block of [generate_image] (lines 133-190). *)
Definition generate_body (prompt api_key : string) (include_text : bool)
    (output_path : option string) (model : string) : M bool :=
  let* response :=
    generate_content {| req_api_key := api_key; req_model := model;
                        req_contents := prompt;
                        req_modalities := modalities_of include_text |} in
  match candidates response with
  | None | Some [] => let* _ := print MsgNoCandidates in ret false
  | Some (candidate :: _) =>
      let* parts :=
        match content candidate with
        | Some ps => ret ps
        | None => raise (PyExn "AttributeError" "'NoneType' object has no attribute 'parts'")
        end in
      let* image_count := save_images output_path 0 parts 0 in
      let* _ := print_text include_text parts in
      if image_count =? 0 then
        let* _ := print MsgNoImages in ret false
      else
        let* _ := print (MsgSuccess image_count) in ret true
  end.

Definition generate_image (prompt api_key : string) (include_text : bool)
    (output_path : option string) (model : string) : M bool :=
  let* _ := print MsgGenerating in
  let* _ := print (MsgModel model) in
  let* _ := print (MsgPrompt prompt) in
  let* _ := print (MsgModalities (modalities_of include_text)) in
  try_catch (generate_body prompt api_key include_text output_path model)
    (fun e => let* _ := print (MsgError e) in ret false).

(** ** Command line *)

(** The parsed arguments. *)
Record args := {
  arg_prompt : string;
  arg_include_text : bool;
  arg_output : option string;
  arg_model : string
}.

Definition guidance : list message :=
  [MsgKeyNotFound; MsgGuidanceIntro;
   MsgGuidance EnvGoogle; MsgGuidance EnvGemini;
   MsgGuidance SkillEnvFile; MsgGuidance ProjectEnvFile;
   MsgGetKeyUrl].

Fixpoint print_all (ms : list message) : M unit :=
  match ms with
  | [] => ret tt
  | m :: rest => let* _ := print m in print_all rest
  end.

(** Lines 239-246: the guidance and [sys.exit(1)]. *)
Definition missing_key : M nat :=
  let* _ := print_all guidance in ret 1.

(** [main], after argument parsing; the value is the status passed to
    [sys.exit]. *)
Definition main (a : args) : M nat :=
  let* _ := print MsgSearching in
  let* api_key := find_api_key in
  match api_key with
  | Some k =>
      if PyStr.nonempty k then
        let* success :=
          generate_image (arg_prompt a) k (arg_include_text a)
                         (arg_output a) (arg_model a) in
        ret (if success then 0 else 1)
      else missing_key
  | None => missing_key
  end.

(** The process: an exception that escapes [main] ends it with status 1. *)
Definition run (a : args) (h : host) (s : state) : nat * state :=
  match main a h s with
  | (Val status, s') => (status, s')
  | (Raise _, s') => (1, s')
  end.

(** ** Specification-side vocabulary *)

(** [.env] of the skill directory and of the project root. *)
Definition skill_env (h : host) : path :=
  PyPath.div (PyPath.parent (PyPath.parent (script_file h))) ".env".

Definition project_env (h : host) : path :=
  PyPath.div
    (PyPath.parent (PyPath.parent (PyPath.parent
       (PyPath.parent (PyPath.parent (script_file h)))))) ".env".

(** A value counts as a credential when it is present and non-empty. *)
Definition credential (o : option string) : option string :=
  match o with
  | Some k => if PyStr.nonempty k then Some k else None
  | None => None
  end.

(** The credential a file yields: the value returned at its first
    recognized line, when reading gets that far without an error. *)
Definition file_credential (fs : file_state) : option string :=
  match fs with
  | Readable ls tail =>
      match scan_lines ls tail with
      | Val r => credential r
      | Raise _ => None
      end
  | Missing | OpenFails _ => None
  end.

(** The credential each source holds. *)
Definition yield (h : host) (src : source) : option string :=
  match src with
  | EnvGoogle => credential (environ h !! "GOOGLE_API_KEY")
  | EnvGemini => credential (environ h !! "GEMINI_API_KEY")
  | SkillEnvFile => file_credential (readfs h (skill_env h))
  | ProjectEnvFile => file_credential (readfs h (project_env h))
  end.

(** The fixed search order. *)
Definition precedence : list source :=
  [EnvGoogle; EnvGemini; SkillEnvFile; ProjectEnvFile].

(** Where a file source lives. *)
Definition location (h : host) (src : source) : option path :=
  match src with
  | SkillEnvFile => Some (skill_env h)
  | ProjectEnvFile => Some (project_env h)
  | EnvGoogle | EnvGemini => None
  end.

(** The exception that asking whether a source is there runs into:
    none for a variable, the [PermissionError] of [exists()] for a file
    location that cannot be reached. *)
Definition probe_error (h : host) (src : source) : option exn :=
  match location h src with
  | Some p => if blocked h p then Some permission_denied else None
  | None => None
  end.

(** First credential along an order, whatever it takes to get there. *)
Fixpoint first_credential (h : host) (order : list source) : option string :=
  match order with
  | [] => None
  | src :: rest =>
      match yield h src with
      | Some k => Some k
      | None => first_credential h rest
      end
  end.

(** What going through the sources in order comes to: the first
    credential, nothing, or the exception of a location that cannot be
    asked. *)
Fixpoint resolution (h : host) (order : list source) : outcome (option string) :=
  match order with
  | [] => Val None
  | src :: rest =>
      match probe_error h src with
      | Some e => Raise e
      | None =>
          match yield h src with
          | Some k => Val (Some k)
          | None => resolution h rest
          end
      end
  end.

(** The credential the search ends with, if it ends with one. *)
Definition first_yield (h : host) (order : list source) : option string :=
  match resolution h order with
  | Val r => r
  | Raise _ => None
  end.

(** The sources looked at: everything up to and including the first one
    that yields or cannot be asked. *)
Fixpoint consulted (h : host) (order : list source) : list source :=
  match order with
  | [] => []
  | src :: rest =>
      src :: match probe_error h src with
             | Some _ => []
             | None =>
                 match yield h src with
                 | Some _ => []
                 | None => consulted h rest
                 end
             end
  end.


(** The error that reading a location runs into, if any: opening fails,
    or the line iterator raises before a recognized line is reached. *)
Definition read_error (fs : file_state) : option exn :=
  match fs with
  | Missing => Some (PyExn "FileNotFoundError" "No such file or directory")
  | OpenFails e => Some e
  | Readable ls tail =>
      match scan_lines ls tail with
      | Raise e => Some e
      | Val _ => None
      end
  end.

(** The state after the events [evs] have happened and nothing else. *)
Definition extend (s : state) (evs : list event) : state :=
  {| ticks := ticks s; files := files s; dirs := dirs s;
     trace := trace s ++ evs |}.

(** The events of looking at an environment variable. *)
Definition env_events (h : host) (name : string) : list event :=
  EGetenv name ::
  match credential (environ h !! name) with
  | Some _ => [EPrint (MsgKeyInEnv name)]
  | None => []
  end.

(** The warning printed when reading a location fails. *)
Definition warning_events (p : path) (fs : file_state) : list event :=
  match read_error fs with
  | Some e => [EPrint (MsgReadWarning p e)]
  | None => []
  end.

(** The events of looking at a candidate file. *)
Definition file_events (h : host) (p : path) (found : message) : list event :=
  EExists p ::
  if blocked h p then []
  else
    match readfs h p with
    | Missing => []
    | fs =>
        EOpenRead p :: warning_events p fs ++
        match file_credential fs with
        | Some _ => [EPrint found]
        | None => []
        end
    end.

(** Everything that consulting a source does. *)
Definition source_events (h : host) (src : source) : list event :=
  match src with
  | EnvGoogle => env_events h "GOOGLE_API_KEY"
  | EnvGemini => env_events h "GEMINI_API_KEY"
  | SkillEnvFile => file_events h (skill_env h) (MsgKeyInSkillDir (skill_env h))
  | ProjectEnvFile => file_events h (project_env h) (MsgKeyInProjectDir (project_env h))
  end.



Definition is_print (e : event) : bool :=
  match e with EPrint _ => true | _ => false end.

(** The events of a trace that are not prints. *)
Definition accesses (evs : list event) : list event :=
  List.filter (fun e => negb (is_print e)) evs.

(** The messages printed along a trace. *)
Definition printed (evs : list event) : list message :=
  flat_map (fun e => match e with EPrint m => [m] | _ => [] end) evs.

(** *** Credential-file lines *)

(** The test of line 91, on a line as the file iterator yields it. *)
Definition key_line (raw : string) : bool :=
  PyStr.startswith_any (PyStr.strip raw) recognized_prefixes.

(** The two recognized variable names. *)
Definition recognized_names : list string :=
  ["GOOGLE_API_KEY"; "GEMINI_API_KEY"].

Definition is_dquote (c : ascii) : bool := PyStr.mem c (String PyStr.dquote "").
Definition is_squote (c : ascii) : bool := PyStr.mem c (String PyStr.squote "").
Definition is_quote (c : ascii) : bool := is_dquote c || is_squote c.

(** Every character of [s] satisfies [p]. *)
Fixpoint all_chars (p : ascii -> bool) (s : string) : bool :=
  match s with
  | EmptyString => true
  | String c s' => p c && all_chars p s'
  end.

(** No character of [s] satisfies [p]. *)
Definition no_chars (p : ascii -> bool) (s : string) : bool :=
  all_chars (fun c => negb (p c)) s.

(** First and last character. *)
Definition first_char (s : string) : option ascii :=
  match s with
  | EmptyString => None
  | String c _ => Some c
  end.

Fixpoint last_char (s : string) : option ascii :=
  match s with
  | EmptyString => None
  | String c EmptyString => Some c
  | String _ s' => last_char s'
  end.

(** All but the last character. *)
Fixpoint drop_last (s : string) : string :=
  match s with
  | EmptyString => EmptyString
  | String _ EmptyString => EmptyString
  | String c s' => String c (drop_last s')
  end.

(** The quote handling of lines 93-94 in closed form: every leading and
    trailing double quote goes, then every leading and trailing single
    quote. *)
Definition strip_quote_runs (s : string) : string :=
  PyStr.strip_chars (String PyStr.squote "")
    (PyStr.strip_chars (String PyStr.dquote "") s).

(** Following the specification's words: "a single layer of enclosing
    single- or double-quotes stripped".  A string of at least two
    characters that begins and ends with the same quote character loses
    that one pair; any other string is unchanged. *)
Definition strip_one_layer (s : string) : string :=
  match s with
  | String q s' =>
      if is_quote q then
        match last_char s' with
        | Some q' => if Ascii.eqb q q' then drop_last s' else s
        | None => s
        end
      else s
  | EmptyString => EmptyString
  end.

(** Following the specification's words: the value of a line
    [NAME=rest] is [rest] with surrounding whitespace and a single layer
    of enclosing quotes stripped. *)
Definition single_layer_value (rest : string) : string :=
  strip_one_layer (PyStr.strip rest).

(** The value wrapped in a double and a single layer of quotes. *)
Definition doubly_quoted : string :=
  String PyStr.dquote (String PyStr.squote ("abc" +:+ String PyStr.squote (String PyStr.dquote ""))).

(** [abc123] between double quotes. *)
Definition quoted_abc123 : string :=
  String PyStr.dquote ("abc123" +:+ String PyStr.dquote "").

(** *** The executor's events *)

(** The image parts of a part list: position and data, in order,
    counting positions from [i]. *)
Fixpoint images_from (i : nat) (parts : list part) : list (nat * bytes) :=
  match parts with
  | [] => []
  | p :: rest =>
      match inline_data p with
      | Some data => (i, data) :: images_from (S i) rest
      | None => images_from (S i) rest
      end
  end.

Definition images (parts : list part) : list (nat * bytes) :=
  images_from 0 parts.

(** The parts the script works on: the content of the first candidate. *)
Definition first_parts (r : response) : option (list part) :=
  match candidates r with
  | Some (c :: _) => content c
  | Some [] | None => None
  end.

(** The value of [image_count] once the loop is over ([0] when there
    is nothing to loop over). *)
Definition image_counter (r : response) : nat :=
  match first_parts r with
  | Some parts => length (images parts)
  | None => 0
  end.

(** The explicit output path, when one is given: [output_path] is
    neither [None] nor empty. *)
Definition explicit_path (output_path : option string) : option path :=
  match output_path with
  | Some o => if PyStr.nonempty o then Some (PyPath.Path o) else None
  | None => None
  end.

(** The default destination of the part at position [i], the clock being
    read for the [t]-th time. *)
Definition default_destination (h : host) (t i : nat) : path :=
  PyPath.div assets_dir (default_name (strftime (clock h t)) i).

(** The events of saving one image at [p]. *)
Definition save_events_at (p : path) (data : bytes) : list event :=
  [EMkdir (PyPath.parent p); EWrite p data; EPrint (MsgImageSaved p)].

(** The events of the saving loop over the image parts [imgs], when no
    disk operation fails; [t] counts the clock readings so far. *)
Fixpoint save_events (h : host) (output_path : option string) (t : nat)
    (imgs : list (nat * bytes)) : list event :=
  match imgs with
  | [] => []
  | (i, data) :: rest =>
      match explicit_path output_path with
      | Some p => save_events_at p data ++ save_events h output_path t rest
      | None =>
          let p := default_destination h t i in
          [ENow; EMkdir assets_dir] ++ save_events_at p data
          ++ save_events h output_path (S t) rest
      end
  end.

(** Where each image goes, in order. *)
Fixpoint destinations (h : host) (output_path : option string) (t : nat)
    (imgs : list (nat * bytes)) : list (path * bytes) :=
  match imgs with
  | [] => []
  | (i, data) :: rest =>
      match explicit_path output_path with
      | Some p => (p, data) :: destinations h output_path t rest
      | None =>
          (default_destination h t i, data)
          :: destinations h output_path (S t) rest
      end
  end.

(** The events of the text display. *)
Definition text_events (include_text : bool) (parts : list part) : list event :=
  if include_text then
    match text_parts parts with
    | [] => []
    | ts => EPrint MsgTextHeader :: map (fun t => EPrint (MsgText t)) ts
    end
  else [].

(** The request the executor sends. *)
Definition request_of (prompt api_key : string) (include_text : bool)
    (model : string) : request :=
  {| req_api_key := api_key; req_model := model; req_contents := prompt;
     req_modalities := modalities_of include_text |}.

(** The four lines printed before the request, and the request. *)
Definition opening_events (prompt api_key : string) (include_text : bool)
    (model : string) : list event :=
  [EPrint MsgGenerating; EPrint (MsgModel model); EPrint (MsgPrompt prompt);
   EPrint (MsgModalities (modalities_of include_text));
   ERequest (request_of prompt api_key include_text model)].

(** The last line of a run that got to the end of the [try] block. *)
Definition closing_event (image_count : nat) : event :=
  if image_count =? 0 then EPrint MsgNoImages
  else EPrint (MsgSuccess image_count).

(** The effect of one event on the state when the operation succeeds. *)
Definition apply_event (e : event) (s : state) : state :=
  match e with
  | ENow => add_event e (add_tick s)
  | EMkdir p => add_dirs (PyPath.ancestors p) (add_event e s)
  | EWrite p data => put_file p data (add_event e s)
  | _ => add_event e s
  end.

(** The state after a sequence of successful events. *)
Definition replay (evs : list event) (s : state) : state :=
  fold_left (fun st e => apply_event e st) evs s.

(** The file writes, directory creations and requests of a trace. *)
Definition writes (evs : list event) : list (path * bytes) :=
  flat_map (fun e => match e with EWrite p d => [(p, d)] | _ => [] end) evs.

Definition mkdirs (evs : list event) : list path :=
  flat_map (fun e => match e with EMkdir p => [p] | _ => [] end) evs.

Definition requests (evs : list event) : list request :=
  flat_map (fun e => match e with ERequest r => [r] | _ => [] end) evs.

(** The generated text shown: header and text lines. *)
Definition is_text_message (m : message) : bool :=
  match m with
  | MsgTextHeader | MsgText _ => true
  | _ => false
  end.

Definition text_output (evs : list event) : list message :=
  List.filter is_text_message (printed evs).

(** No disk operation fails. *)
Definition fault_free (h : host) : Prop := forall op, fault h op = None.

(** A response whose first candidate has the given parts. *)
Definition response_of (parts : list part) : response :=
  {| candidates := Some [ {| content := Some parts |} ] |}.

Definition image_part (data : bytes) : part :=
  {| inline_data := Some data; text := None |}.

Definition text_part (t : string) : part :=
  {| inline_data := None; text := Some t |}.

(** Following the specification's words for two image parts and no
    explicit output path: both files under the assets directory, "the
    same timestamp prefix and a distinct trailing index (0 and 1)". *)
Definition names_with_indices_0_1 (ps : list path) : Prop :=
  exists ts,
    ps = [PyPath.div assets_dir (default_name ts 0);
          PyPath.div assets_dir (default_name ts 1)].

Definition is_digit (c : ascii) : bool :=
  ((48 <=? nat_of_ascii c) && (nat_of_ascii c <=? 57))%nat.

(** The state in which the resolver leaves [main]. *)
Definition after_resolver (h : host) (s : state) : state :=
  extend s (EPrint MsgSearching
            :: flat_map (source_events h) (consulted h precedence)).

(** The exit status for an executor outcome. *)
Definition status_of (res : outcome bool) : nat :=
  match res with
  | Val true => 0
  | Val false | Raise _ => 1
  end.

(** *** Text parts and image parts *)

(** The data of the image parts, in order. *)
Fixpoint payloads (parts : list part) : list bytes :=
  match parts with
  | [] => []
  | p :: rest =>
      match inline_data p with
      | Some data => data :: payloads rest
      | None => payloads rest
      end
  end.

(** Following the specification's words: two part lists "differing only
    in their text parts" carry the same image parts in the same order;
    text parts may be present, absent or different. *)
Definition differ_only_in_text (parts parts' : list part) : Prop :=
  payloads parts = payloads parts'.

(** The stricter relation: the same image data at the same positions,
    so that only the text carried at each position may differ. *)
Definition same_image_positions (parts parts' : list part) : Prop :=
  map inline_data parts = map inline_data parts'.

(** Two hosts with the same clock and the same disk behaviour. *)
Definition same_surroundings (h h' : host) : Prop :=
  (forall t, clock h t = clock h' t)
  /\ (forall op, fault h op = fault h' op)
  /\ (forall p, torn h p = torn h' p).

(** A computation that shows no generated text. *)
Definition quiet {A} (m : M A) : Prop :=
  forall h s, text_output (trace (m h s).2) = text_output (trace s).

(** *** Further vocabulary *)

(** The host with another environment. *)
Definition with_environ (env : gmap string string) (h : host) : host :=
  {| environ := env; script_file := script_file h; stored := stored h;
     unsearchable := unsearchable h; service := service h; clock := clock h;
     fault := fault h; torn := torn h |}.

(** The saving loop seen over the image parts alone: one [save_part]
    per image part, at its position. *)
Fixpoint save_imgs (output_path : option string) (imgs : list (nat * bytes))
    (image_count : nat) : M nat :=
  match imgs with
  | [] => ret image_count
  | (i, data) :: rest =>
      let* _ := save_part output_path i data in
      save_imgs output_path rest (S image_count)
  end.

(** A computation that sends no request. *)
Definition no_request {A} (m : M A) : Prop :=
  forall h s, requests (trace (m h s).2) = requests (trace s).

(** The four lines printed before the [try] block. *)
Definition header_events (prompt : string) (include_text : bool)
    (model : string) : list event :=
  [EPrint MsgGenerating; EPrint (MsgModel model); EPrint (MsgPrompt prompt);
   EPrint (MsgModalities (modalities_of include_text))].

(** Two states with the same files, directories and clock reading
    count; their traces may differ. *)
Definition same_disk_state (s s' : state) : Prop :=
  ticks s = ticks s' /\ files s = files s' /\ dirs s = dirs s'.

(** ** Sample hosts, for the examples *)

Definition offline : request -> outcome response :=
  fun _ => Raise (PyExn "ConnectionError" "offline").

Definition noon : datetime :=
  {| year := 2025; month := 1; day := 2; hour := 12; minute := 0; second := 0 |}.

Definition install_path : path :=
  PyPath.Path "/proj/.claude/skills/gemini-image-gen/scripts/generate.py".

Definition make_host (env : gmap string string) (fs : path -> file_state)
    (svc : request -> outcome response) : host :=
  {| environ := env; script_file := install_path; stored := fs;
     unsearchable := fun _ => false; service := svc; clock := fun _ => noon;
     fault := fun _ => None; torn := fun _ => None |}.

(** The state at process start. *)
Definition fresh : state :=
  {| ticks := 0; files := ∅; dirs := ∅; trace := [] |}.


(** No variable set; the skill-directory file cannot be opened, the
    project-root file holds a key. *)
Definition host_unreadable_skill : host :=
  make_host ∅
    (fun p =>
       if decide (p = PyPath.Path "/proj/.claude/skills/gemini-image-gen/.env")
       then OpenFails (PyExn "PermissionError" "Permission denied")
       else if decide (p = PyPath.Path "/proj/.env")
       then Readable ["# keys"; "GEMINI_API_KEY=fallback"] None
       else Missing)
    offline.

(** A file whose first recognized line has an empty value. *)
Definition blank_then_key : list string :=
  ["# keys"; "GOOGLE_API_KEY="; "GEMINI_API_KEY=real"].

(** The service answers with no candidate at all. *)
Definition host_no_candidates : host :=
  make_host ∅ (fun _ => Missing) (fun _ => Val {| candidates := Some [] |}).

(** The service answers with two image parts. *)
Definition host_two_images : host :=
  make_host ∅ (fun _ => Missing)
    (fun _ => Val (response_of [image_part [Byte.x01]; image_part [Byte.x02]])).

(** The service answers with a text part followed by two image parts. *)
Definition host_text_then_two_images : host :=
  make_host ∅ (fun _ => Missing)
    (fun _ => Val (response_of [text_part "caption"; image_part [Byte.x01];
                                image_part [Byte.x02]])).

(** The service answers with text only. *)
Definition host_text_only : host :=
  make_host ∅ (fun _ => Missing)
    (fun _ => Val (response_of [text_part "a caption"])).

(** The service answers with one image part. *)
Definition host_one_image : host :=
  make_host ∅ (fun _ => Missing)
    (fun _ => Val (response_of [image_part [Byte.x01]])).

(** The service answers with a text part and the same image part. *)
Definition host_text_then_image : host :=
  make_host ∅ (fun _ => Missing)
    (fun _ => Val (response_of [text_part "caption"; image_part [Byte.x01]])).

(** A key file with a comment, an indented key line with its line
    ending, and a second key line. *)
Definition indented_key_file : list string :=
  ["# local keys"; "   GEMINI_API_KEY=first  " +:+ String "013" (String "010" "");
   "GOOGLE_API_KEY=second"].

(** [GOOGLE_API_KEY] set to the empty string, [GEMINI_API_KEY] to a key. *)
Definition host_empty_primary : host :=
  make_host ({[ "GOOGLE_API_KEY" := "" ]} ∪ {[ "GEMINI_API_KEY" := "legacy" ]})
            (fun _ => Missing) offline.

(** A key in the environment and a service that answers with a caption
    and two image parts. *)
Definition host_ready : host :=
  make_host {[ "GOOGLE_API_KEY" := "primary" ]} (fun _ => Missing)
    (fun _ => Val (response_of [text_part "caption"; image_part [Byte.x01];
                                image_part [Byte.x02]])).

(** As [host_two_images], but the second default file cannot be
    written. *)
Definition host_second_write_fails : host :=
  {| environ := ∅; script_file := install_path; stored := fun _ => Missing;
     unsearchable := fun _ => false;
     service := fun _ => Val (response_of [image_part [Byte.x01]; image_part [Byte.x02]]);
     clock := fun _ => noon;
     fault := fun op =>
       match op with
       | OpWrite p =>
           if bool_decide (p = PyPath.Path "docs/assets/gemini-20250102-120000-1.png")
           then Some (PyExn "OSError" "No space left on device")
           else None
       | OpMkdir _ => None
       end;
     torn := fun _ => Some 0 |}.

(** The service answers with a caption, an image part, an empty text
    and a second text. *)
Definition host_captions : host :=
  make_host ∅ (fun _ => Missing)
    (fun _ => Val (response_of [text_part "first"; image_part [Byte.x01];
                                text_part ""; text_part "second"])).




(** ** Proof support *)

Ltac run_monad :=
  unfold bind, ret, raise, try_catch, print, emit, getenv, path_exists,
    open_read, generate_content, now, mkdir_p, write_file,
    add_event, add_tick, add_dirs, put_file in *;
  cbn [fst snd ticks files dirs trace] in *.

Lemma extend_nil s : extend s [] = s.
Proof. destruct s. unfold extend. cbn. rewrite app_nil_r. reflexivity. Qed.

Lemma extend_extend s evs1 evs2 :
  extend (extend s evs1) evs2 = extend s (evs1 ++ evs2).
Proof. unfold extend. cbn. rewrite app_assoc. reflexivity. Qed.

Lemma add_event_extend e s : add_event e s = extend s [e].
Proof. reflexivity. Qed.

Lemma credential_nonempty o k : credential o = Some k -> PyStr.nonempty k = true.
Proof.
  destruct o as [k'|]; cbn; [|discriminate].
  destruct (PyStr.nonempty k') eqn:E; [|discriminate].
  intros [= <-]. exact E.
Qed.

Lemma credential_truthy o :
  credential o = if PyStr.truthy o then o else None.
Proof. destruct o as [k|]; cbn; [|reflexivity]. destruct (PyStr.nonempty k); reflexivity. Qed.

(** A file lookup returns either nothing or a non-empty key. *)
Lemma scan_lines_credential ls tail r :
  scan_lines ls tail = Val r -> credential r = r.
Proof.
  induction ls as [|raw rest IH]; cbn [scan_lines].
  - destruct tail; [discriminate|]. intros [= <-]. reflexivity.
  - destruct (PyStr.startswith_any (PyStr.strip raw) recognized_prefixes); [|exact IH].
    destruct (extract_key (PyStr.strip raw)) as [key|e]; [|discriminate].
    intros [= <-]. destruct (PyStr.nonempty key) eqn:E; cbn; rewrite ?E; reflexivity.
Qed.

Lemma file_credential_truthy fs :
  PyStr.truthy (file_credential fs) = match file_credential fs with Some _ => true | None => false end.
Proof.
  destruct (file_credential fs) as [k|] eqn:E; [|reflexivity].
  cbn. destruct fs as [| |ls tail]; try discriminate. cbn in E.
  destruct (scan_lines ls tail); [|discriminate].
  eapply credential_nonempty; eassumption.
Qed.

(** What [load_env_file] does at a path, by the state of the file there:
    it never raises, returns the file's credential, and prints the
    warning exactly when reading fails. *)
Lemma load_env_file_exact h s p :
  load_env_file p h s =
    (Val (file_credential (readfs h p)),
     extend s (EOpenRead p :: warning_events p (readfs h p))).
Proof.
  unfold load_env_file, load_env_body, warning_events, extend. run_monad.
  destruct (readfs h p) as [|e|ls tail]; cbn.
  - rewrite <- app_assoc. reflexivity.
  - rewrite <- app_assoc. reflexivity.
  - destruct (scan_lines ls tail) as [r|e] eqn:E; cbn.
    + rewrite (scan_lines_credential _ _ _ E). reflexivity.
    + rewrite <- app_assoc. reflexivity.
Qed.

(** *** Locations that cannot be reached *)

Lemma readfs_unblocked h p : blocked h p = false -> readfs h p = stored h p.
Proof. unfold readfs. intros ->. reflexivity. Qed.

Lemma readfs_blocked h p :
  blocked h p = true -> readfs h p = OpenFails permission_denied.
Proof. unfold readfs. intros ->. reflexivity. Qed.

(** A location that holds a file, or is known to hold none, was
    reached. *)
Lemma readable_unblocked h p ls tail :
  readfs h p = Readable ls tail -> blocked h p = false.
Proof. unfold readfs. destruct (blocked h p); [discriminate | reflexivity]. Qed.


Lemma parent_div d name : PyPath.parent (PyPath.div d name) = d.
Proof.
  destruct d as [a l]. unfold PyPath.parent, PyPath.div. cbn [fst snd].
  rewrite removelast_last. reflexivity.
Qed.

Lemma ancestors_parent d a :
  In a (PyPath.ancestors (PyPath.parent d)) -> In a (PyPath.ancestors d).
Proof.
  destruct d as [abs l]. unfold PyPath.ancestors, PyPath.parent. cbn [fst snd].
  rewrite !in_map_iff. intros (n & <- & Hn). apply in_seq in Hn.
  exists n. rewrite removelast_firstn_len in *.
  rewrite length_firstn in Hn. rewrite firstn_firstn.
  split; [f_equal; f_equal; lia | apply in_seq; lia].
Qed.

(** The project root lies above the skill directory: when the skill
    location can be reached, so can the project location. *)
Lemma blocked_project_env h :
  blocked h (skill_env h) = false -> blocked h (project_env h) = false.
Proof.
  unfold blocked, skill_env, project_env. rewrite !parent_div.
  intros Hs. apply not_true_iff_false. intros Hp.
  apply existsb_exists in Hp as (a & Ha & Hu).
  do 3 apply ancestors_parent in Ha.
  assert (existsb (unsearchable h)
            (PyPath.ancestors (PyPath.parent (PyPath.parent (script_file h))))
          = true) as Hc by (apply existsb_exists; eauto).
  congruence.
Qed.

(** *** The resolver as one equation *)

Lemma resolution_cons h src rest :
  resolution h (src :: rest) =
    match probe_error h src with
    | Some e => Raise e
    | None =>
        match yield h src with
        | Some k => Val (Some k)
        | None => resolution h rest
        end
    end.
Proof. reflexivity. Qed.

Lemma consulted_cons h src rest :
  consulted h (src :: rest) =
    src :: match probe_error h src with
           | Some _ => []
           | None =>
               match yield h src with
               | Some _ => []
               | None => consulted h rest
               end
           end.
Proof. reflexivity. Qed.

Lemma resolution_last h src :
  resolution h [src] =
    match probe_error h src with
    | Some e => Raise e
    | None => Val (yield h src)
    end.
Proof.
  rewrite resolution_cons. destruct (probe_error h src); [reflexivity|].
  destruct (yield h src); reflexivity.
Qed.

Lemma consulted_last {A} (f : source -> list A) h src :
  flat_map f (consulted h [src]) = f src.
Proof.
  rewrite consulted_cons.
  destruct (probe_error h src); [|destruct (yield h src)]; cbn; apply app_nil_r.
Qed.

(** What looking at a file location does, by what is there. *)
Lemma file_lookup_exact h s p found (rest : M (option string)) :
  (let* present := path_exists p in
   if present then
     let* api_key := load_env_file p in
     if PyStr.truthy api_key then
       let* _ := print found in ret api_key
     else rest
   else rest) h s
  = if blocked h p then (Raise permission_denied, extend s [EExists p])
    else match file_credential (readfs h p) with
         | Some k => (Val (Some k), extend s (file_events h p found))
         | None => rest h (extend s (file_events h p found))
         end.
Proof.
  unfold file_events. unfold bind at 1. unfold path_exists.
  destruct (blocked h p) eqn:Hb; [reflexivity|].
  destruct (readfs h p) as [|e|ls tail] eqn:Hfs.
  - reflexivity.
  - unfold bind at 1. rewrite load_env_file_exact, Hfs.
    cbn [file_credential PyStr.truthy].
    rewrite add_event_extend, extend_extend, app_nil_r. reflexivity.
  - unfold bind at 1. rewrite load_env_file_exact, Hfs.
    rewrite file_credential_truthy.
    rewrite add_event_extend, extend_extend.
    destruct (file_credential (Readable ls tail)) as [k|]; run_monad.
    + unfold extend. cbn. rewrite <- !app_assoc. reflexivity.
    + rewrite app_nil_r. reflexivity.
Qed.

Lemma find_in_project_exact h s :
  find_in_project (PyPath.parent (PyPath.parent (script_file h))) h s
    = (resolution h [ProjectEnvFile], extend s (source_events h ProjectEnvFile)).
Proof.
  unfold find_in_project.
  change (PyPath.div _ ".env") with (project_env h).
  rewrite (file_lookup_exact h s (project_env h)
             (MsgKeyInProjectDir (project_env h)) (ret None)).
  rewrite resolution_last. unfold probe_error. cbn [location yield source_events].
  destruct (blocked h (project_env h)) eqn:Hb.
  - unfold file_events. rewrite Hb. reflexivity.
  - destruct (file_credential (readfs h (project_env h))); reflexivity.
Qed.

Lemma find_in_skill_exact h s :
  find_in_skill h s
    = (resolution h [SkillEnvFile; ProjectEnvFile],
       extend s (flat_map (source_events h) (consulted h [SkillEnvFile; ProjectEnvFile]))).
Proof.
  unfold find_in_skill.
  change (PyPath.div _ ".env") with (skill_env h).
  rewrite (file_lookup_exact h s (skill_env h) (MsgKeyInSkillDir (skill_env h))).
  rewrite resolution_cons, consulted_cons. unfold probe_error at 1 2.
  cbn [location yield flat_map source_events].
  destruct (blocked h (skill_env h)) eqn:Hb.
  - unfold file_events. rewrite Hb. reflexivity.
  - destruct (file_credential (readfs h (skill_env h))).
    + cbn [flat_map]. rewrite app_nil_r. reflexivity.
    + rewrite find_in_project_exact, extend_extend, consulted_last. reflexivity.
Qed.

(** The whole resolver, as one equation: its outcome is that of going
    through the sources in order, its events those of the sources
    consulted, and nothing else changes. *)
Lemma find_api_key_exact h s :
  find_api_key h s
    = (resolution h precedence,
       extend s (flat_map (source_events h) (consulted h precedence))).
Proof.
  unfold find_api_key, precedence.
  rewrite (resolution_cons h EnvGoogle), (resolution_cons h EnvGemini).
  rewrite (consulted_cons h EnvGoogle), (consulted_cons h EnvGemini).
  unfold probe_error at 1 2 3 4. cbn [location yield flat_map source_events].
  unfold env_events.
  unfold bind at 1. unfold getenv at 1.
  rewrite (credential_truthy (environ h !! "GOOGLE_API_KEY")).
  destruct (PyStr.truthy (environ h !! "GOOGLE_API_KEY")) eqn:H1.
  { destruct (environ h !! "GOOGLE_API_KEY") as [k1|]; [|discriminate H1].
    run_monad. unfold extend. cbn. rewrite <- !app_assoc. reflexivity. }
  unfold bind at 1. unfold getenv at 1.
  cbn [flat_map source_events]. unfold env_events.
  rewrite (credential_truthy (environ h !! "GEMINI_API_KEY")).
  destruct (PyStr.truthy (environ h !! "GEMINI_API_KEY")) eqn:H2.
  { destruct (environ h !! "GEMINI_API_KEY") as [k2|]; [|discriminate H2].
    run_monad. unfold extend. cbn. rewrite <- !app_assoc. reflexivity. }
  rewrite find_in_skill_exact, !add_event_extend, !extend_extend.
  reflexivity.
Qed.




Lemma file_credential_nonempty fs k :
  file_credential fs = Some k -> PyStr.nonempty k = true.
Proof.
  destruct fs as [| |ls tail]; try discriminate.
  cbn. destruct (scan_lines ls tail); [|discriminate].
  apply credential_nonempty.
Qed.

Lemma yield_nonempty h src k : yield h src = Some k -> PyStr.nonempty k = true.
Proof.
  destruct src; cbn [yield];
    first [apply credential_nonempty | apply file_credential_nonempty].
Qed.

Lemma first_credential_nonempty h order k :
  first_credential h order = Some k -> PyStr.nonempty k = true.
Proof.
  induction order as [|src rest IH]; cbn; [discriminate|].
  destruct (yield h src) as [k'|] eqn:Hy; [|exact IH].
  intros [= <-]. eapply yield_nonempty; eassumption.
Qed.

(** When the search returns, it returns the first credential along the
    order. *)
Lemma resolution_val h order r :
  resolution h order = Val r -> r = first_credential h order.
Proof.
  induction order as [|src rest IH]; cbn [resolution first_credential].
  - intros [= <-]. reflexivity.
  - destruct (probe_error h src); [discriminate|].
    destruct (yield h src); [intros [= <-]; reflexivity | exact IH].
Qed.



Lemma first_yield_nonempty h order k :
  first_yield h order = Some k -> PyStr.nonempty k = true.
Proof.
  unfold first_yield. destruct (resolution h order) as [r|e] eqn:Hr; [|discriminate].
  intros ->. apply resolution_val in Hr.
  eapply first_credential_nonempty. symmetry. exact Hr.
Qed.

(** ** The credential resolver follows the precedence order *)




(** ** Stripping: lemmas on the string primitives *)

Lemma append_nil_l s : "" +:+ s = s.
Proof. reflexivity. Qed.

Lemma append_cons c s t : String c s +:+ t = String c (s +:+ t).
Proof. reflexivity. Qed.

Ltac sapp := rewrite ?append_cons, ?append_nil_l.

Lemma append_nil_r s : s +:+ "" = s.
Proof. induction s as [|c s IH]; sapp; [reflexivity|]. rewrite IH. reflexivity. Qed.

Lemma append_assoc s1 s2 s3 : (s1 +:+ s2) +:+ s3 = s1 +:+ (s2 +:+ s3).
Proof. induction s1 as [|c s1 IH]; sapp; [reflexivity|]. rewrite IH. reflexivity. Qed.

Lemma all_chars_app p s1 s2 :
  all_chars p (s1 +:+ s2) = all_chars p s1 && all_chars p s2.
Proof.
  induction s1 as [|c s1 IH]; sapp; cbn [all_chars]; [reflexivity|].
  rewrite IH. apply andb_assoc.
Qed.

(** [rstrip] of a concatenation. *)
Lemma rstrip_by_app p a b :
  PyStr.rstrip_by p (a +:+ b) =
    match PyStr.rstrip_by p b with
    | EmptyString => PyStr.rstrip_by p a
    | r => a +:+ r
    end.
Proof.
  induction a as [|c a IH]; sapp; cbn [PyStr.rstrip_by].
  - destruct (PyStr.rstrip_by p b); reflexivity.
  - rewrite IH. destruct (PyStr.rstrip_by p b) as [|x r]; [reflexivity|].
    destruct a; sapp; reflexivity.
Qed.

(** [lstrip] of a concatenation. *)
Lemma lstrip_by_app p a b :
  PyStr.lstrip_by p (a +:+ b) =
    match PyStr.lstrip_by p a with
    | EmptyString => PyStr.lstrip_by p b
    | r => r +:+ b
    end.
Proof.
  induction a as [|c a IH]; sapp; cbn [PyStr.lstrip_by]; [reflexivity|].
  destruct (p c); [exact IH | reflexivity].
Qed.

Lemma rstrip_by_idem p s :
  PyStr.rstrip_by p (PyStr.rstrip_by p s) = PyStr.rstrip_by p s.
Proof.
  induction s as [|c s IH]; cbn; [reflexivity|].
  destruct (PyStr.rstrip_by p s) as [|x r] eqn:E.
  - destruct (p c) eqn:Hc; cbn; rewrite ?Hc; reflexivity.
  - cbn [PyStr.rstrip_by]. cbn [PyStr.rstrip_by] in IH. rewrite IH. reflexivity.
Qed.

Lemma lstrip_rstrip_comm p s :
  PyStr.lstrip_by p (PyStr.rstrip_by p s) = PyStr.rstrip_by p (PyStr.lstrip_by p s).
Proof.
  induction s as [|c s IH]; cbn; [reflexivity|].
  destruct (p c) eqn:Hc.
  - destruct (PyStr.rstrip_by p s) as [|x r] eqn:E.
    + rewrite <- IH. reflexivity.
    + cbn [PyStr.lstrip_by]. rewrite Hc. exact IH.
  - cbn [PyStr.rstrip_by].
    destruct (PyStr.rstrip_by p s) as [|x r]; cbn; rewrite Hc; reflexivity.
Qed.

(** Stripping what was already right-stripped. *)
Lemma strip_by_rstrip p s :
  PyStr.strip_by p (PyStr.rstrip_by p s) = PyStr.strip_by p s.
Proof.
  unfold PyStr.strip_by.
  rewrite lstrip_rstrip_comm, rstrip_by_idem. reflexivity.
Qed.

Lemma lstrip_by_none p s : no_chars p s = true -> PyStr.lstrip_by p s = s.
Proof.
  destruct s as [|c s]; cbn; [reflexivity|].
  destruct (p c); cbn; [discriminate | reflexivity].
Qed.

Lemma rstrip_by_none p s : no_chars p s = true -> PyStr.rstrip_by p s = s.
Proof.
  induction s as [|c s IH]; cbn; [reflexivity|].
  destruct (p c) eqn:Hc; cbn; [discriminate|].
  intros H. rewrite (IH H). destruct s; reflexivity.
Qed.

Lemma strip_by_none p s : no_chars p s = true -> PyStr.strip_by p s = s.
Proof.
  intros H. unfold PyStr.strip_by. rewrite (lstrip_by_none _ _ H).
  apply rstrip_by_none, H.
Qed.

(** One pair of [p]-characters around a text without any is removed,
    and nothing more. *)
Lemma strip_by_wrapped p q mid :
  p q = true -> no_chars p mid = true ->
  PyStr.strip_by p (String q (mid +:+ String q "")) = mid.
Proof.
  intros Hq Hmid. unfold PyStr.strip_by.
  cbn [PyStr.lstrip_by]. rewrite Hq.
  rewrite lstrip_by_app, (lstrip_by_none _ _ Hmid).
  destruct mid as [|c mid'].
  - cbn. rewrite Hq. reflexivity.
  - rewrite rstrip_by_app.
    replace (PyStr.rstrip_by p (String q "")) with ""
      by (cbn; rewrite Hq; reflexivity).
    apply rstrip_by_none, Hmid.
Qed.

(** What is stripped on the left is a run of [p]-characters, and what
    remains does not begin with one. *)
Lemma lstrip_by_decompose p s :
  exists pre,
    s = pre +:+ PyStr.lstrip_by p s
    /\ all_chars p pre = true
    /\ (forall c, first_char (PyStr.lstrip_by p s) = Some c -> p c = false).
Proof.
  induction s as [|c s (pre & Hs & Hpre & Hfirst)]; cbn [PyStr.lstrip_by].
  - exists "". repeat split. discriminate.
  - destruct (p c) eqn:Hc.
    + exists (String c pre). sapp. cbn [all_chars]. rewrite Hc, Hpre.
      repeat split; [|exact Hfirst]. f_equal. exact Hs.
    + exists "". repeat split. cbn. intros c' [= <-]. exact Hc.
Qed.

Lemma rstrip_by_decompose p s :
  exists post,
    s = PyStr.rstrip_by p s +:+ post
    /\ all_chars p post = true
    /\ (forall c, last_char (PyStr.rstrip_by p s) = Some c -> p c = false)
    /\ (forall c, first_char (PyStr.rstrip_by p s) = Some c -> first_char s = Some c).
Proof.
  induction s as [|c s (post & Hs & Hpost & Hlast & Hfirst)]; cbn [PyStr.rstrip_by].
  - exists "". repeat split; discriminate.
  - destruct (PyStr.rstrip_by p s) as [|x r] eqn:E.
    + destruct (p c) eqn:Hc.
      * exists (String c post). sapp. cbn [all_chars]. rewrite Hc, Hpost.
        repeat split; try discriminate. f_equal. exact Hs.
      * exists post. sapp. repeat split; try assumption.
        -- f_equal. exact Hs.
        -- cbn. intros c' [= <-]. exact Hc.
        -- cbn. intros c' H. exact H.
    + exists post. sapp.
      split; [f_equal; exact Hs|]. split; [exact Hpost|].
      split; [intros c'; cbn [last_char]; exact (Hlast c') | cbn; intros c' H; exact H].
Qed.

Lemma all_chars_impl (p q : ascii -> bool) s :
  (forall c, p c = true -> q c = true) ->
  all_chars p s = true -> all_chars q s = true.
Proof.
  intros Hpq. induction s as [|c s IH]; cbn; [reflexivity|].
  intros [Hc Hs]%andb_prop. rewrite (Hpq _ Hc), (IH Hs). reflexivity.
Qed.

(** Both pieces of [split1] when the left piece has no separator. *)
Lemma split1_app sep pre rest :
  no_chars (Ascii.eqb sep) pre = true ->
  PyStr.split1 sep (pre +:+ String sep rest) = [pre; rest].
Proof.
  induction pre as [|c pre IH]; sapp; cbn [PyStr.split1 no_chars all_chars].
  - rewrite Ascii.eqb_refl. reflexivity.
  - intros [Hc Hpre]%andb_prop. rewrite Ascii.eqb_sym.
    destruct (Ascii.eqb sep c); [discriminate|].
    rewrite (IH Hpre). reflexivity.
Qed.

Lemma prefix_app p x : String.prefix p (p +:+ x) = true.
Proof.
  induction p as [|c p IH]; sapp; cbn; [destruct x; reflexivity|].
  destruct (ascii_dec c c); [exact IH | congruence].
Qed.

(** Stripping a line that begins with text free of whitespace at both
    ends only touches what follows that text. *)
Lemma strip_headed c pre rest :
  PyStr.isspace c = false ->
  PyStr.rstrip_by PyStr.isspace (String c pre) = String c pre ->
  PyStr.strip (String c pre +:+ rest)
    = String c pre +:+ PyStr.rstrip_by PyStr.isspace rest.
Proof.
  intros Hc Hr. unfold PyStr.strip, PyStr.strip_by.
  rewrite (append_cons c pre rest). cbn [PyStr.lstrip_by]. rewrite Hc.
  rewrite <- (append_cons c pre rest), rstrip_by_app, Hr.
  destruct (PyStr.rstrip_by PyStr.isspace rest); [rewrite append_nil_r|]; reflexivity.
Qed.

Lemma strip_key_line name rest :
  In name recognized_names ->
  PyStr.strip (name +:+ "=" +:+ rest)
    = name +:+ "=" +:+ PyStr.rstrip_by PyStr.isspace rest.
Proof.
  intros [<-|[<-|[]]].
  - apply (strip_headed "G" "OOGLE_API_KEY=" rest); reflexivity.
  - apply (strip_headed "G" "EMINI_API_KEY=" rest); reflexivity.
Qed.

Lemma key_line_prefixed name rest :
  In name recognized_names -> key_line (name +:+ "=" +:+ rest) = true.
Proof.
  intros Hn. unfold key_line. rewrite (strip_key_line _ _ Hn).
  unfold PyStr.startswith_any, recognized_prefixes, PyStr.startswith.
  cbn [existsb].
  destruct Hn as [<-|[<-|[]]].
  - apply orb_true_iff. left.
    exact (prefix_app "GOOGLE_API_KEY=" (PyStr.rstrip_by PyStr.isspace rest)).
  - apply orb_true_iff. right. apply orb_true_iff. left.
    exact (prefix_app "GEMINI_API_KEY=" (PyStr.rstrip_by PyStr.isspace rest)).
Qed.

Lemma extract_key_prefixed name rest :
  In name recognized_names ->
  extract_key (PyStr.strip (name +:+ "=" +:+ rest))
    = Val (strip_quote_runs (PyStr.strip rest)).
Proof.
  intros Hn. rewrite (strip_key_line _ _ Hn). unfold extract_key.
  change (name +:+ "=" +:+ PyStr.rstrip_by PyStr.isspace rest)
    with (name +:+ String "=" (PyStr.rstrip_by PyStr.isspace rest)).
  rewrite split1_app.
  - unfold PyStr.strip. rewrite strip_by_rstrip. reflexivity.
  - destruct Hn as [<-|[<-|[]]]; reflexivity.
Qed.

Lemma is_quote_cases q :
  is_quote q = true -> q = PyStr.dquote \/ q = PyStr.squote.
Proof.
  unfold is_quote, is_dquote, is_squote. cbn [PyStr.mem].
  rewrite !orb_false_r. intros [H|H]%orb_prop; apply Ascii.eqb_eq in H; auto.
Qed.

Lemma no_quote_no_dquote s :
  no_chars is_quote s = true -> no_chars is_dquote s = true.
Proof.
  apply all_chars_impl. intros c. unfold is_quote.
  destruct (is_dquote c); [discriminate | reflexivity].
Qed.

Lemma no_quote_no_squote s :
  no_chars is_quote s = true -> no_chars is_squote s = true.
Proof.
  apply all_chars_impl. intros c. unfold is_quote.
  destruct (is_squote c); [rewrite orb_true_r; discriminate | reflexivity].
Qed.

(** The closed form of the quote handling, characterized. *)
Lemma strip_quote_runs_decompose t :
  exists pre post,
    t = pre +:+ strip_quote_runs t +:+ post
    /\ all_chars is_quote pre = true
    /\ all_chars is_quote post = true.
Proof.
  unfold strip_quote_runs, PyStr.strip_chars.
  change (fun c => PyStr.mem c (String PyStr.dquote "")) with is_dquote.
  change (fun c => PyStr.mem c (String PyStr.squote "")) with is_squote.
  set (u := PyStr.strip_by is_dquote t).
  destruct (lstrip_by_decompose is_dquote t) as (a & Ha & Hqa & _).
  destruct (rstrip_by_decompose is_dquote (PyStr.lstrip_by is_dquote t))
    as (b & Hb & Hqb & _).
  destruct (lstrip_by_decompose is_squote u) as (a' & Ha' & Hqa' & _).
  destruct (rstrip_by_decompose is_squote (PyStr.lstrip_by is_squote u))
    as (b' & Hb' & Hqb' & _).
  fold (PyStr.strip_by is_dquote t) in Hb. fold u in Hb.
  fold (PyStr.strip_by is_squote u) in Hb'.
  exists (a +:+ a'), (b' +:+ b).
  assert (Hd : forall c, is_dquote c = true -> is_quote c = true)
    by (intros c Hc; unfold is_quote; rewrite Hc; reflexivity).
  assert (Hs : forall c, is_squote c = true -> is_quote c = true)
    by (intros c Hc; unfold is_quote; rewrite Hc; apply orb_true_r).
  split; [|split].
  - rewrite Ha at 1. rewrite Hb. rewrite Ha' at 1. rewrite Hb' at 1.
    rewrite !append_assoc. reflexivity.
  - rewrite all_chars_app, (all_chars_impl _ _ _ Hd Hqa), (all_chars_impl _ _ _ Hs Hqa').
    reflexivity.
  - rewrite all_chars_app, (all_chars_impl _ _ _ Hd Hqb), (all_chars_impl _ _ _ Hs Hqb').
    reflexivity.
Qed.

Lemma strip_quote_runs_ends t :
  (forall c, first_char (strip_quote_runs t) = Some c -> is_squote c = false)
  /\ (forall c, last_char (strip_quote_runs t) = Some c -> is_squote c = false).
Proof.
  unfold strip_quote_runs, PyStr.strip_chars.
  change (fun c => PyStr.mem c (String PyStr.squote "")) with is_squote.
  set (u := PyStr.strip_by _ t).
  destruct (lstrip_by_decompose is_squote u) as (a' & _ & _ & Hfirst).
  destruct (rstrip_by_decompose is_squote (PyStr.lstrip_by is_squote u))
    as (b' & _ & _ & Hlast & Hkeep).
  split.
  - intros c Hc. apply Hfirst, Hkeep, Hc.
  - exact Hlast.
Qed.

(** One layer of quotes around a quote-free text: that layer goes. *)
Lemma strip_quote_runs_single q mid :
  is_quote q = true -> no_chars is_quote mid = true ->
  strip_quote_runs (String q (mid +:+ String q "")) = mid.
Proof.
  intros Hq Hmid. unfold strip_quote_runs, PyStr.strip_chars.
  change (fun c => PyStr.mem c (String PyStr.dquote "")) with is_dquote.
  change (fun c => PyStr.mem c (String PyStr.squote "")) with is_squote.
  destruct (is_quote_cases q Hq) as [-> | ->].
  - rewrite strip_by_wrapped by (reflexivity || apply no_quote_no_dquote, Hmid).
    apply strip_by_none, no_quote_no_squote, Hmid.
  - rewrite (strip_by_none is_dquote).
    + apply strip_by_wrapped; [reflexivity | apply no_quote_no_squote, Hmid].
    + unfold no_chars. cbn [all_chars]. rewrite all_chars_app.
      fold (no_chars is_dquote mid). rewrite (no_quote_no_dquote _ Hmid).
      reflexivity.
Qed.

(** ** Values of credential-file lines *)

(** C2, as amended: on a line [NAME=rest] for a recognized name, the
    extracted value is [rest] with surrounding whitespace stripped, then
    every leading and trailing double quote removed, then every leading
    and trailing single quote removed, whatever their number and whether
    or not they pair up; so the value is what remains of the stripped
    remainder after a run of quote characters is taken off each end, and
    it neither begins nor ends with a single quote.  When the stripped
    remainder is a quote-free text inside one pair of equal quotes, the
    value is that text. *)
Theorem line_value_strips_quote_runs (name rest : string) :
  In name recognized_names ->
  key_line (name +:+ "=" +:+ rest) = true
  /\ extract_key (PyStr.strip (name +:+ "=" +:+ rest))
       = Val (strip_quote_runs (PyStr.strip rest))
  /\ (forall more tail,
        scan_lines ((name +:+ "=" +:+ rest) :: more) tail
          = Val (credential (Some (strip_quote_runs (PyStr.strip rest)))))
  /\ (exists pre post,
        PyStr.strip rest = pre +:+ strip_quote_runs (PyStr.strip rest) +:+ post
        /\ all_chars is_quote pre = true /\ all_chars is_quote post = true)
  /\ (forall c, first_char (strip_quote_runs (PyStr.strip rest)) = Some c ->
                is_squote c = false)
  /\ (forall c, last_char (strip_quote_runs (PyStr.strip rest)) = Some c ->
                is_squote c = false)
  /\ (forall q mid,
        is_quote q = true -> no_chars is_quote mid = true ->
        PyStr.strip rest = String q (mid +:+ String q "") ->
        strip_quote_runs (PyStr.strip rest) = mid).
Proof.
  intros Hn.
  pose proof (key_line_prefixed name rest Hn) as Hk.
  pose proof (extract_key_prefixed name rest Hn) as He.
  split; [exact Hk|]. split; [exact He|]. split; [|split; [|split; [|split]]].
  - intros more tail. cbn [scan_lines]. fold (key_line (name +:+ "=" +:+ rest)).
    rewrite Hk, He. reflexivity.
  - apply strip_quote_runs_decompose.
  - apply strip_quote_runs_ends.
  - apply strip_quote_runs_ends.
  - intros q mid Hq Hmid ->. apply strip_quote_runs_single; assumption.
Qed.

(** The line [GOOGLE_API_KEY="abc123"] yields [abc123]. *)
Lemma line_value_strips_quote_runs_witness :
  scan_lines ["GOOGLE_API_KEY=" +:+ quoted_abc123] None = Val (Some "abc123").
Proof.
  destruct (line_value_strips_quote_runs "GOOGLE_API_KEY" quoted_abc123)
    as (_ & _ & H & _); [left; reflexivity|].
  exact (H [] None).
Defined.

(** C2, as stated, fails: on the value [abc] inside a pair of single
    quotes inside a pair of double quotes, the code removes both layers
    where a single layer would leave the single quotes in place. *)
Lemma single_layer_value_refuted :
  extract_key (PyStr.strip ("GOOGLE_API_KEY=" +:+ doubly_quoted)) = Val "abc"
  /\ single_layer_value doubly_quoted
       = String PyStr.squote ("abc" +:+ String PyStr.squote "")
  /\ ~ (forall rest,
          extract_key (PyStr.strip ("GOOGLE_API_KEY=" +:+ rest))
            = Val (single_layer_value rest)).
Proof.
  split; [reflexivity|]. split; [reflexivity|].
  intros H. specialize (H doubly_quoted). vm_compute in H. discriminate H.
Qed.

(** ** A first recognized line with an empty value *)

Lemma scan_lines_skip before rest tail :
  Forall (fun l => key_line l = false) before ->
  scan_lines (before ++ rest) tail = scan_lines rest tail.
Proof.
  induction 1 as [|l before Hl _ IH]; [reflexivity|].
  cbn [app scan_lines]. fold (key_line l). rewrite Hl. exact IH.
Qed.

Lemma resolution_skip h before rest :
  Forall (fun b => probe_error h b = None /\ yield h b = None) before ->
  resolution h (before ++ rest) = resolution h rest
  /\ consulted h (before ++ rest) = before ++ consulted h rest.
Proof.
  induction 1 as [|b before [Hp Hb] _ [IH1 IH2]]; [split; reflexivity|].
  cbn [app resolution consulted]. rewrite Hp, Hb, IH1, IH2. split; reflexivity.
Qed.

(** C10: when the first recognized line of a credential file has an
    empty value, the lookup in that file yields nothing, whatever the
    later lines hold and even if reading further would fail; no warning
    is printed, and when the file is the skill-directory one the
    resolver goes on to the project-root file. *)
Theorem empty_value_ends_file_lookup (before : list string) (raw : string)
    (after : list string) (tail : option exn) :
  Forall (fun l => key_line l = false) before ->
  key_line raw = true ->
  extract_key (PyStr.strip raw) = Val "" ->
  scan_lines (before ++ raw :: after) tail = Val None
  /\ (forall h s p,
        readfs h p = Readable (before ++ raw :: after) tail ->
        load_env_file p h s = (Val None, extend s [EOpenRead p]))
  /\ (forall h s,
        yield h EnvGoogle = None -> yield h EnvGemini = None ->
        readfs h (skill_env h) = Readable (before ++ raw :: after) tail ->
        find_api_key h s =
          (Val (yield h ProjectEnvFile),
           extend s ([EGetenv "GOOGLE_API_KEY"; EGetenv "GEMINI_API_KEY";
                      EExists (skill_env h); EOpenRead (skill_env h)]
                     ++ source_events h ProjectEnvFile))).
Proof.
  intros Hbefore Hraw Hval.
  assert (Hscan : scan_lines (before ++ raw :: after) tail = Val None).
  { rewrite (scan_lines_skip _ _ _ Hbefore). cbn [scan_lines].
    fold (key_line raw). rewrite Hraw, Hval. reflexivity. }
  split; [exact Hscan|]. split.
  - intros h s p Hfs. rewrite load_env_file_exact, Hfs.
    unfold warning_events, read_error. cbn [file_credential].
    rewrite Hscan. reflexivity.
  - intros h s H1 H2 Hfs. rewrite find_api_key_exact.
    assert (H3 : yield h SkillEnvFile = None).
    { cbn [yield]. rewrite Hfs. cbn [file_credential]. rewrite Hscan. reflexivity. }
    pose proof (readable_unblocked _ _ _ _ Hfs) as Hb.
    pose proof (blocked_project_env _ Hb) as Hb'.
    assert (Hp : forall src, probe_error h src = None).
    { intros src. unfold probe_error.
      destruct src; cbn [location]; rewrite ?Hb, ?Hb'; reflexivity. }
    unfold precedence.
    destruct (resolution_skip h [EnvGoogle; EnvGemini; SkillEnvFile] [ProjectEnvFile])
      as [Hres Hcons].
    { repeat constructor; solve [apply Hp | assumption]. }
    cbn [app] in Hres, Hcons. rewrite Hres, Hcons, resolution_last, Hp.
    cbn [flat_map]. rewrite consulted_last.
    cbn [yield] in H1, H2. cbn [source_events]. unfold env_events.
    rewrite H1, H2. unfold file_events at 1. rewrite Hb, Hfs.
    unfold warning_events, read_error. cbn [file_credential]. rewrite Hscan.
    reflexivity.
Qed.

(** A comment, then [GOOGLE_API_KEY=], then a line with a real key: the
    file yields nothing. *)
Lemma empty_value_ends_file_lookup_witness :
  scan_lines blank_then_key None = Val None.
Proof.
  destruct (empty_value_ends_file_lookup ["# keys"] "GOOGLE_API_KEY="
              ["GEMINI_API_KEY=real"] None) as (H & _).
  - repeat constructor.
  - reflexivity.
  - reflexivity.
  - exact H.
Defined.

(** ** Missing and unreadable credential files *)









(** ** The executor when no disk operation fails *)

Lemma replay_app evs1 evs2 s :
  replay (evs1 ++ evs2) s = replay evs2 (replay evs1 s).
Proof. apply fold_left_app. Qed.

Lemma save_part_ok h o i data s :
  fault_free h ->
  save_part o i data h s
    = (Val tt, replay (save_events h o (ticks s) [(i, data)]) s).
Proof.
  intros Hff. unfold save_part, default_save_path.
  cbn [save_events]. unfold explicit_path.
  assert (Hdefault :
    (let* save_path := (let* dt := now in
                        let* _ := mkdir_p assets_dir in
                        ret (PyPath.div assets_dir (default_name (strftime dt) i))) in
     let* _ := mkdir_p (PyPath.parent save_path) in
     let* _ := write_file save_path data in
     print (MsgImageSaved save_path)) h s
    = (Val tt,
       replay (([ENow; EMkdir assets_dir]
                ++ save_events_at (default_destination h (ticks s) i) data) ++ []) s)).
  { run_monad. rewrite !Hff. reflexivity. }
  destruct o as [o|]; [destruct (PyStr.nonempty o)|].
  - run_monad. rewrite !Hff. reflexivity.
  - rewrite Hdefault, <- app_assoc. reflexivity.
  - rewrite Hdefault, <- app_assoc. reflexivity.
Qed.

Lemma save_images_ok h o parts :
  fault_free h ->
  forall i c s,
    save_images o i parts c h s
      = (Val (c + length (images_from i parts)),
         replay (save_events h o (ticks s) (images_from i parts)) s).
Proof.
  intros Hff. induction parts as [|p rest IH]; intros i c s.
  - cbn. rewrite Nat.add_0_r. reflexivity.
  - cbn [save_images images_from]. destruct (inline_data p) as [data|]; [|apply IH].
    unfold bind at 1. rewrite (save_part_ok _ _ _ _ _ Hff), IH.
    cbn [length save_events]. rewrite Nat.add_succ_r.
    destruct (explicit_path o) as [q|].
    + rewrite app_nil_r, replay_app. reflexivity.
    + rewrite app_nil_r, (app_assoc _ _ (save_events _ _ _ _)), replay_app.
      reflexivity.
Qed.

Lemma print_texts_exact ts h s :
  print_texts ts h s = (Val tt, extend s (map (fun t => EPrint (MsgText t)) ts)).
Proof.
  revert s. induction ts as [|t rest IH]; intros s.
  - cbn. rewrite extend_nil. reflexivity.
  - cbn [print_texts map]. unfold bind, print, emit.
    rewrite IH, add_event_extend, extend_extend. reflexivity.
Qed.

Lemma print_text_exact it parts h s :
  print_text it parts h s = (Val tt, extend s (text_events it parts)).
Proof.
  unfold print_text, text_events. destruct it.
  - destruct (text_parts parts) as [|t ts].
    + cbn. rewrite extend_nil. reflexivity.
    + unfold bind, print, emit. rewrite print_texts_exact, add_event_extend, extend_extend.
      reflexivity.
  - cbn. rewrite extend_nil. reflexivity.
Qed.

Lemma print_all_exact ms h s :
  print_all ms h s = (Val tt, extend s (map EPrint ms)).
Proof.
  revert s. induction ms as [|m rest IH]; intros s.
  - cbn. rewrite extend_nil. reflexivity.
  - cbn [print_all map]. unfold bind, print, emit.
    rewrite IH, add_event_extend, extend_extend. reflexivity.
Qed.

(** Replaying events that change nothing but the trace. *)
Lemma replay_prints evs s :
  Forall (fun e => match e with ENow | EMkdir _ | EWrite _ _ => False | _ => True end) evs ->
  replay evs s = extend s evs.
Proof.
  intros H. revert s. induction H as [|e evs He _ IH]; intros s.
  - cbn. rewrite extend_nil. reflexivity.
  - cbn [replay fold_left]. fold (replay evs (apply_event e s)).
    rewrite IH. destruct e; try contradiction;
      cbn [apply_event]; rewrite add_event_extend, extend_extend; reflexivity.
Qed.

Lemma text_events_prints it parts :
  Forall (fun e => match e with ENow | EMkdir _ | EWrite _ _ => False | _ => True end)
    (text_events it parts).
Proof.
  unfold text_events. destruct it; [|constructor].
  destruct (text_parts parts) as [|t ts]; constructor; [exact I|].
  induction (t :: ts); constructor; [exact I | assumption].
Qed.

(** The whole executor, as one equation, when the service answers with
    a first candidate that has content and no disk operation fails. *)
Lemma generate_image_ok h s prompt key it o model r parts :
  fault_free h ->
  service h (request_of prompt key it model) = Val r ->
  first_parts r = Some parts ->
  generate_image prompt key it o model h s
    = (Val (negb (length (images parts) =? 0)),
       replay (opening_events prompt key it model
               ++ save_events h o (ticks s) (images parts)
               ++ text_events it parts
               ++ [closing_event (length (images parts))]) s).
Proof.
  intros Hff Hsvc Hparts.
  unfold generate_image, generate_body.
  fold (request_of prompt key it model).
  unfold first_parts in Hparts.
  rewrite !replay_app.
  set (s1 := replay (opening_events prompt key it model) s).
  assert (Hs1 : ticks s1 = ticks s) by reflexivity.
  unfold bind at 1 2 3 4. unfold print at 1 2 3 4. unfold emit.
  unfold try_catch. unfold bind at 1. unfold generate_content. rewrite Hsvc.
  destruct (candidates r) as [[|cand cs]|]; try discriminate Hparts.
  rewrite Hparts.
  unfold bind at 1. unfold ret at 1.
  unfold bind at 1. unfold images.
  rewrite (save_images_ok h o parts Hff 0 0). cbn [Nat.add].
  change (add_event _ (add_event _ (add_event _ (add_event _ (add_event _ s))))) with s1.
  rewrite Hs1.
  set (s2 := replay (save_events h o (ticks s) (images_from 0 parts)) s1).
  unfold bind at 1. rewrite print_text_exact.
  rewrite (replay_prints (text_events it parts)) by apply text_events_prints.
  unfold closing_event.
  destruct (length (images_from 0 parts) =? 0); reflexivity.
Qed.

(** ** What a replayed run leaves behind *)

Lemma trace_replay evs s : trace (replay evs s) = trace s ++ evs.
Proof.
  revert s. induction evs as [|e evs IH]; intros s; cbn [replay fold_left].
  - rewrite app_nil_r. reflexivity.
  - fold (replay evs (apply_event e s)). rewrite IH.
    destruct e; cbn; rewrite <- app_assoc; reflexivity.
Qed.

Lemma files_replay evs s :
  files (replay evs s)
    = fold_left (fun m w => <[w.1 := w.2]> m) (writes evs) (files s).
Proof.
  revert s. induction evs as [|e evs IH]; intros s; cbn [replay fold_left].
  - reflexivity.
  - fold (replay evs (apply_event e s)). rewrite IH.
    destruct e; reflexivity.
Qed.

Lemma dirs_replay evs s :
  dirs (replay evs s)
    = fold_left (fun ds p => ds ∪ list_to_set (PyPath.ancestors p)) (mkdirs evs) (dirs s).
Proof.
  revert s. induction evs as [|e evs IH]; intros s; cbn [replay fold_left].
  - reflexivity.
  - fold (replay evs (apply_event e s)). rewrite IH.
    destruct e; reflexivity.
Qed.

Lemma writes_app evs1 evs2 : writes (evs1 ++ evs2) = writes evs1 ++ writes evs2.
Proof. apply List.flat_map_app. Qed.

Lemma mkdirs_app evs1 evs2 : mkdirs (evs1 ++ evs2) = mkdirs evs1 ++ mkdirs evs2.
Proof. apply List.flat_map_app. Qed.

Lemma ancestors_self (p : path) : p ∈ PyPath.ancestors p.
Proof.
  unfold PyPath.ancestors. apply list_elem_of_In, in_map_iff.
  exists (length p.2). split.
  - rewrite firstn_all. destruct p; reflexivity.
  - apply in_seq. lia.
Qed.

Lemma created_dirs_keep (ps : list path) :
  forall (ds : gset path) (x : path),
    x ∈ ds ->
    x ∈ fold_left (fun ds p => ds ∪ list_to_set (PyPath.ancestors p)) ps ds.
Proof.
  induction ps as [|p ps IH]; intros ds x Hx; cbn [fold_left]; [exact Hx|].
  apply IH, elem_of_union. left. exact Hx.
Qed.

(** Every directory the run asks for is there afterwards. *)
Lemma created_dirs_replay evs s p :
  In p (mkdirs evs) -> p ∈ dirs (replay evs s).
Proof.
  rewrite dirs_replay. generalize (dirs s) as ds.
  induction (mkdirs evs) as [|q qs IH]; intros ds; [contradiction|].
  cbn [fold_left]. intros [<-|Hin]; [|apply IH, Hin].
  apply created_dirs_keep, elem_of_union. right.
  apply elem_of_list_to_set, ancestors_self.
Qed.

Lemma writes_save_events h o imgs :
  forall t, writes (save_events h o t imgs) = destinations h o t imgs.
Proof.
  induction imgs as [|[i data] rest IH]; intros t; [reflexivity|].
  cbn [save_events destinations].
  destruct (explicit_path o) as [q|]; cbn; rewrite IH; reflexivity.
Qed.

Lemma writes_text_events it parts : writes (text_events it parts) = [].
Proof.
  unfold text_events. destruct it; [|reflexivity].
  destruct (text_parts parts) as [|t ts]; [reflexivity|].
  cbn. induction ts; [reflexivity | assumption].
Qed.

Lemma writes_closing n : writes [closing_event n] = [].
Proof. unfold closing_event. destruct (n =? 0); reflexivity. Qed.

(** The writes of a whole run of the executor. *)
Lemma writes_generation h o t prompt key it model parts :
  writes (opening_events prompt key it model
          ++ save_events h o t (images parts)
          ++ text_events it parts
          ++ [closing_event (length (images parts))])
    = destinations h o t (images parts).
Proof.
  rewrite !writes_app, writes_save_events, writes_text_events, writes_closing.
  cbn. rewrite app_nil_r. reflexivity.
Qed.

(** ** No candidates *)

(** C4: when the response has no candidates, [generate_image] returns
    [False]; it prints its opening lines and the failure line, sends the
    one request, and does nothing else: no directory is created, no file
    is written, and the files and directories are those from before. *)
Theorem no_candidates_no_writes (h : host) (s : state)
    (prompt key : string) (it : bool) (o : option string) (model : string)
    (r : response) :
  service h (request_of prompt key it model) = Val r ->
  candidates r = None \/ candidates r = Some [] ->
  exists evs,
    generate_image prompt key it o model h s = (Val false, extend s evs)
    /\ evs = opening_events prompt key it model ++ [EPrint MsgNoCandidates]
    /\ writes evs = [] /\ mkdirs evs = []
    /\ files (extend s evs) = files s /\ dirs (extend s evs) = dirs s.
Proof.
  intros Hsvc Hnone.
  exists (opening_events prompt key it model ++ [EPrint MsgNoCandidates]).
  split; [|repeat split].
  unfold generate_image, generate_body.
  fold (request_of prompt key it model).
  unfold bind at 1 2 3 4. unfold print at 1 2 3 4. unfold emit.
  unfold try_catch. unfold bind at 1. unfold generate_content. rewrite Hsvc.
  destruct Hnone as [-> | ->]; run_monad; unfold extend; cbn;
    rewrite <- !app_assoc; reflexivity.
Qed.

(** An empty candidate list, on a fresh state: failure and an empty disk. *)
Lemma no_candidates_no_writes_witness :
  fst (generate_image "a cat" "key" false None "model" host_no_candidates fresh)
    = Val false
  /\ files (snd (generate_image "a cat" "key" false None "model"
                   host_no_candidates fresh)) = ∅
  /\ dirs (snd (generate_image "a cat" "key" false None "model"
                  host_no_candidates fresh)) = ∅.
Proof.
  destruct (no_candidates_no_writes host_no_candidates fresh "a cat" "key"
              false None "model" {| candidates := Some [] |})
    as (evs & -> & _ & _ & _ & Hf & Hd).
  - reflexivity.
  - right. reflexivity.
  - cbn [fst snd]. rewrite Hf, Hd. repeat split.
Defined.

(** ** An explicit output path *)

Lemma destinations_explicit h o q imgs :
  explicit_path o = Some q ->
  forall t, destinations h o t imgs = map (fun img => (q, img.2)) imgs.
Proof.
  intros Ho. induction imgs as [|[i data] rest IH]; intros t; [reflexivity|].
  cbn [destinations map]. rewrite Ho, IH. reflexivity.
Qed.

(** Writing again and again to one path leaves the last content. *)
Lemma overwrite_same_path (q : path) (imgs : list (nat * bytes)) :
  forall m : gmap path bytes,
    fold_left (fun m w => <[w.1 := w.2]> m) (map (fun img => (q, img.2)) imgs) m
      = match last imgs with
        | Some img => <[q := img.2]> m
        | None => m
        end.
Proof.
  induction imgs as [|img rest IH]; intros m; [reflexivity|].
  cbn [map fold_left fst snd]. rewrite IH.
  destruct rest as [|img' rest']; [reflexivity|].
  change (last (img :: img' :: rest')) with (last (img' :: rest')).
  destruct (last (img' :: rest')) as [lst|] eqn:E.
  - apply insert_insert_eq.
  - apply last_None in E. discriminate E.
Qed.

(** C5: with an explicit (non-empty) output path, when no disk
    operation fails, every image part of the first candidate is written
    to that one path, in order; the file ends up holding the data of the
    last image part, so with two image parts both writes go to the
    explicit path and the second one's data stays. *)
Theorem explicit_output_path_is_reused (h : host) (s : state)
    (prompt key : string) (it : bool) (o : string) (model : string)
    (r : response) (parts : list part) :
  PyStr.nonempty o = true ->
  fault_free h ->
  service h (request_of prompt key it model) = Val r ->
  first_parts r = Some parts ->
  exists evs,
    generate_image prompt key it (Some o) model h s
      = (Val (negb (length (images parts) =? 0)), replay evs s)
    /\ trace (replay evs s) = trace s ++ evs
    /\ writes evs = map (fun img => (PyPath.Path o, img.2)) (images parts)
    /\ files (replay evs s)
         = match last (images parts) with
           | Some img => <[PyPath.Path o := img.2]> (files s)
           | None => files s
           end
    /\ (forall i j d1 d2,
          images parts = [(i, d1); (j, d2)] ->
          writes evs = [(PyPath.Path o, d1); (PyPath.Path o, d2)]
          /\ files (replay evs s) !! PyPath.Path o = Some d2).
Proof.
  intros Ho Hff Hsvc Hparts.
  assert (He : explicit_path (Some o) = Some (PyPath.Path o))
    by (cbn; rewrite Ho; reflexivity).
  eexists. split; [exact (generate_image_ok _ _ _ _ _ _ _ _ _ Hff Hsvc Hparts)|].
  rewrite files_replay, writes_generation.
  rewrite (destinations_explicit _ _ _ _ He), overwrite_same_path.
  split; [apply trace_replay|]. split; [reflexivity|]. split; [reflexivity|].
  intros i j d1 d2 ->. split; [reflexivity|].
  cbn. apply lookup_insert_eq.
Qed.

(** [--output custom.png] and two image parts: both writes go to
    [custom.png], which ends up holding the second part. *)
Lemma explicit_output_path_is_reused_witness :
  exists evs,
    generate_image "a cat" "key" false (Some "custom.png") "model"
                   host_two_images fresh = (Val true, replay evs fresh)
    /\ writes evs = [(PyPath.Path "custom.png", [Byte.x01]);
                     (PyPath.Path "custom.png", [Byte.x02])]
    /\ files (replay evs fresh) !! PyPath.Path "custom.png" = Some [Byte.x02].
Proof.
  destruct (explicit_output_path_is_reused host_two_images fresh "a cat" "key"
              false "custom.png" "model"
              (response_of [image_part [Byte.x01]; image_part [Byte.x02]])
              [image_part [Byte.x01]; image_part [Byte.x02]])
    as (evs & Hrun & _ & _ & _ & Htwo).
  - reflexivity.
  - intros op. reflexivity.
  - reflexivity.
  - reflexivity.
  - exists evs. split; [exact Hrun|].
    exact (Htwo 0 1 [Byte.x01] [Byte.x02] eq_refl).
Defined.

(** ** Default file names *)

Lemma of_nat_inj i j : PyStr.of_nat i = PyStr.of_nat j -> i = j.
Proof.
  unfold PyStr.of_nat. intros H.
  apply (f_equal NilEmpty.uint_of_string) in H.
  rewrite !NilEmpty.usu in H. injection H as H.
  apply (f_equal Nat.of_uint) in H.
  rewrite !DecimalNat.Unsigned.of_to in H. exact H.
Qed.

Lemma of_nat_digits n : all_chars is_digit (PyStr.of_nat n) = true.
Proof.
  unfold PyStr.of_nat. induction (Nat.to_uint n); cbn; auto.
Qed.

Lemma digits_no_sep sep s :
  is_digit sep = false ->
  all_chars is_digit s = true -> no_chars (Ascii.eqb sep) s = true.
Proof.
  intros Hsep. apply all_chars_impl. intros c Hc.
  destruct (Ascii.eqb_spec sep c) as [<-|]; [congruence | reflexivity].
Qed.

(** Two strings that end with a separator-free tail after a separator
    agree on both sides of that separator as soon as they are equal. *)
Lemma split_at_last_sep sep x y a b :
  no_chars (Ascii.eqb sep) a = true ->
  no_chars (Ascii.eqb sep) b = true ->
  x +:+ String sep a = y +:+ String sep b ->
  x = y /\ a = b.
Proof.
  intros Ha Hb. revert y.
  induction x as [|c x IH]; intros [|c' y]; sapp; intros H.
  - injection H as ->. split; reflexivity.
  - injection H as <- ->. exfalso.
    unfold no_chars in Ha. rewrite all_chars_app in Ha. cbn in Ha.
    rewrite Ascii.eqb_refl, andb_false_r in Ha. discriminate Ha.
  - injection H as -> <-. exfalso.
    unfold no_chars in Hb. rewrite all_chars_app in Hb. cbn in Hb.
    rewrite Ascii.eqb_refl, andb_false_r in Hb. discriminate Hb.
  - injection H as <- H. destruct (IH _ H) as [-> ->]. split; reflexivity.
Qed.

(** A default file name determines its index. *)
Lemma default_name_index_inj ts ts' i j :
  default_name ts i = default_name ts' j -> i = j.
Proof.
  unfold default_name. sapp. intros H. injection H as H.
  change (ts +:+ String "-" (PyStr.of_nat i +:+ String "." "png")
          = ts' +:+ String "-" (PyStr.of_nat j +:+ String "." "png")) in H.
  assert (Htail : forall n,
            no_chars (Ascii.eqb "-") (PyStr.of_nat n +:+ String "." "png") = true).
  { intros n. unfold no_chars. rewrite all_chars_app.
    fold (no_chars (Ascii.eqb "-") (PyStr.of_nat n)).
    rewrite (digits_no_sep "-" _ eq_refl (of_nat_digits n)). reflexivity. }
  apply split_at_last_sep in H; [|apply Htail|apply Htail].
  destruct H as [_ H].
  apply split_at_last_sep in H; [|reflexivity|reflexivity].
  apply of_nat_inj, H.
Qed.

Lemma div_inj p name name' : PyPath.div p name = PyPath.div p name' -> name = name'.
Proof.
  unfold PyPath.div. intros [= H]. apply app_inv_head in H.
  injection H as H. exact H.
Qed.

(** The first image part found from position [i] on sits at a position
    [a >= i], and the others are the image parts of what follows it. *)
Lemma images_from_inv parts :
  forall i a d rest,
    images_from i parts = (a, d) :: rest ->
    exists parts',
      i <= a /\ rest = images_from (S a) parts'
      /\ S a + length parts' = i + length parts.
Proof.
  induction parts as [|p ps IH]; intros i a d rest; cbn [images_from length].
  - discriminate.
  - destruct (inline_data p) as [d0|].
    + intros [= <- <- <-]. exists ps. repeat split; lia.
    + intros H. destruct (IH _ _ _ _ H) as (parts' & Hle & Hrest & Hlen).
      exists parts'. repeat split; [lia | exact Hrest | lia].
Qed.

Lemma destinations_default h o :
  explicit_path o = None ->
  forall t i j d1 d2,
    destinations h o t [(i, d1); (j, d2)]
      = [(default_destination h t i, d1); (default_destination h (S t) j, d2)].
Proof. intros Ho t i j d1 d2. cbn. rewrite Ho. reflexivity. Qed.

(** ** Two image parts and no explicit output path *)

(** C6, as amended: with exactly two image parts, no explicit output
    path and no failing disk operation, two distinct files are written
    under the assets directory, named [gemini-<timestamp>-<index>.png]
    where the index of each file is the position of its part in the part
    list of the first candidate (so 0 and 1 when the part list is made
    of the two image parts) and the timestamp is the clock reading taken
    for that part (so the two prefixes are the same when both readings
    are the same). *)
Theorem default_names_follow_part_index (h : host) (s : state)
    (prompt key : string) (it : bool) (o : option string) (model : string)
    (r : response) (parts : list part) (i j : nat) (d1 d2 : bytes) :
  explicit_path o = None ->
  fault_free h ->
  service h (request_of prompt key it model) = Val r ->
  first_parts r = Some parts ->
  images parts = [(i, d1); (j, d2)] ->
  exists evs,
    let p1 := PyPath.div assets_dir
                (default_name (strftime (clock h (ticks s))) i) in
    let p2 := PyPath.div assets_dir
                (default_name (strftime (clock h (S (ticks s)))) j) in
    generate_image prompt key it o model h s = (Val true, replay evs s)
    /\ trace (replay evs s) = trace s ++ evs
    /\ assets_dir ∈ dirs (replay evs s)
    /\ writes evs = [(p1, d1); (p2, d2)]
    /\ p1 <> p2 /\ i < j
    /\ PyPath.parent p1 = assets_dir /\ PyPath.parent p2 = assets_dir
    /\ files (replay evs s) = <[p2 := d2]> (<[p1 := d1]> (files s))
    /\ files (replay evs s) !! p1 = Some d1
    /\ files (replay evs s) !! p2 = Some d2
    /\ (clock h (S (ticks s)) = clock h (ticks s) ->
        p2 = PyPath.div assets_dir
               (default_name (strftime (clock h (ticks s))) j))
    /\ (length parts = 2 -> i = 0 /\ j = 1).
Proof.
  intros Ho Hff Hsvc Hparts Himgs.
  pose proof (generate_image_ok _ s _ _ _ o _ _ _ Hff Hsvc Hparts) as Hrun.
  replace (negb (length (images parts) =? 0)) with true in Hrun
    by (rewrite Himgs; reflexivity).
  eexists. cbn zeta. split; [exact Hrun|].
  split; [apply trace_replay|].
  split.
  { apply created_dirs_replay. rewrite !mkdirs_app, Himgs.
    apply in_or_app. right. apply in_or_app. left.
    cbn [save_events]. rewrite Ho. cbn. left. reflexivity. }
  rewrite files_replay, writes_generation, Himgs.
  rewrite (destinations_default _ _ Ho). unfold default_destination.
  assert (Hij : i < j /\ (length parts = 2 -> i = 0 /\ j = 1)).
  { unfold images in Himgs.
    destruct (images_from_inv _ _ _ _ _ Himgs) as (ps1 & H1 & Hrest & Hlen1).
    symmetry in Hrest.
    destruct (images_from_inv _ _ _ _ _ Hrest) as (ps2 & H2 & _ & Hlen2).
    split; [lia|]. intros Hlen. lia. }
  destruct Hij as [Hlt Htwo].
  assert (Hne : PyPath.div assets_dir (default_name (strftime (clock h (ticks s))) i)
                <> PyPath.div assets_dir (default_name (strftime (clock h (S (ticks s)))) j)).
  { intros Heq. apply div_inj, default_name_index_inj in Heq. lia. }
  split; [reflexivity|]. split; [exact Hne|]. split; [exact Hlt|].
  split; [reflexivity|]. split; [reflexivity|].
  cbn [fold_left fst snd].
  split; [reflexivity|].
  split; [rewrite lookup_insert_ne by congruence; apply lookup_insert_eq|].
  split; [apply lookup_insert_eq|].
  split; [intros ->; reflexivity | exact Htwo].
Qed.

(** Two image parts and nothing else: indices 0 and 1, one timestamp. *)
Lemma default_names_follow_part_index_witness :
  exists evs,
    generate_image "a cat" "key" false None "model" host_two_images fresh
      = (Val true, replay evs fresh)
    /\ writes evs
         = [(PyPath.Path "docs/assets/gemini-20250102-120000-0.png", [Byte.x01]);
            (PyPath.Path "docs/assets/gemini-20250102-120000-1.png", [Byte.x02])].
Proof.
  destruct (default_names_follow_part_index host_two_images fresh "a cat" "key"
              false None "model"
              (response_of [image_part [Byte.x01]; image_part [Byte.x02]])
              [image_part [Byte.x01]; image_part [Byte.x02]]
              0 1 [Byte.x01] [Byte.x02])
    as (evs & Hrun & _ & _ & Hw & _).
  - reflexivity.
  - intros op. reflexivity.
  - reflexivity.
  - reflexivity.
  - reflexivity.
  - exists evs. split; [exact Hrun | exact Hw].
Defined.

(** C6, as stated, fails: a text part before the two image parts moves
    the indices to 1 and 2. *)
Lemma indices_0_1_refuted :
  length (images [text_part "caption"; image_part [Byte.x01]; image_part [Byte.x02]]) = 2
  /\ map fst (writes (trace (snd (generate_image "a cat" "key" false None "model"
                                    host_text_then_two_images fresh))))
       = [PyPath.Path "docs/assets/gemini-20250102-120000-1.png";
          PyPath.Path "docs/assets/gemini-20250102-120000-2.png"]
  /\ ~ names_with_indices_0_1
        (map fst (writes (trace (snd (generate_image "a cat" "key" false None "model"
                                        host_text_then_two_images fresh))))).
Proof.
  split; [reflexivity|].
  assert (Hw : map fst (writes (trace (snd (generate_image "a cat" "key" false None "model"
                                    host_text_then_two_images fresh))))
       = [PyPath.div assets_dir (default_name "20250102-120000" 1);
          PyPath.div assets_dir (default_name "20250102-120000" 2)])
    by (vm_compute; reflexivity).
  split; [rewrite Hw; reflexivity|].
  rewrite Hw. intros (ts & Hts).
  assert (H1 : PyPath.div assets_dir (default_name "20250102-120000" 1)
               = PyPath.div assets_dir (default_name ts 0)) by congruence.
  apply div_inj, default_name_index_inj in H1. discriminate H1.
Qed.

(** ** The result of the executor *)

(** The executor in terms of its saving loop. *)
Lemma generate_image_from_loop h s prompt key it o model r parts :
  service h (request_of prompt key it model) = Val r ->
  first_parts r = Some parts ->
  generate_image prompt key it o model h s
    = match save_images o 0 parts 0 h
              (extend s (opening_events prompt key it model)) with
      | (Val n, s2) =>
          (Val (negb (n =? 0)),
           extend s2 (text_events it parts ++ [closing_event n]))
      | (Raise e, s2) => (Val false, extend s2 [EPrint (MsgError e)])
      end.
Proof.
  intros Hsvc Hparts.
  unfold generate_image, generate_body.
  fold (request_of prompt key it model).
  unfold first_parts in Hparts.
  unfold bind at 1 2 3 4. unfold print at 1 2 3 4. unfold emit.
  unfold try_catch. unfold bind at 1. unfold generate_content. rewrite Hsvc.
  destruct (candidates r) as [[|cand cs]|]; try discriminate Hparts.
  rewrite Hparts.
  unfold bind at 1. unfold ret at 1. unfold bind at 1.
  change (add_event _ (add_event _ (add_event _ (add_event _ (add_event _ s)))))
    with (extend (extend (extend (extend (extend s [EPrint MsgGenerating])
            [EPrint (MsgModel model)]) [EPrint (MsgPrompt prompt)])
            [EPrint (MsgModalities (modalities_of it))])
            [ERequest (request_of prompt key it model)]).
  rewrite !extend_extend.
  change ([EPrint MsgGenerating] ++ [EPrint (MsgModel model)] ++
          [EPrint (MsgPrompt prompt)] ++ [EPrint (MsgModalities (modalities_of it))] ++
          [ERequest (request_of prompt key it model)])
    with (opening_events prompt key it model).
  destruct (save_images o 0 parts 0 h _) as [[n|e] s2].
  - unfold bind at 1. rewrite print_text_exact. unfold closing_event.
    destruct (n =? 0); run_monad; unfold extend; cbn;
      rewrite <- !app_assoc; reflexivity.
  - run_monad. reflexivity.
Qed.

(** The counter returned by the loop is the number of image parts. *)
Lemma save_images_count h o parts :
  forall i c s n s',
    save_images o i parts c h s = (Val n, s') ->
    n = c + length (images_from i parts).
Proof.
  induction parts as [|p rest IH]; intros i c s n s'; cbn [save_images images_from].
  - intros [= <- _]. cbn. lia.
  - destruct (inline_data p) as [data|]; [|apply IH].
    unfold bind at 1. destruct (save_part o i data h s) as [[[]|e] s1]; [|discriminate].
    intros H. apply IH in H. cbn [length]. lia.
Qed.

(** Without image parts the loop does nothing. *)
Lemma save_images_none h o parts :
  forall i c s,
    images_from i parts = [] -> save_images o i parts c h s = (Val c, s).
Proof.
  induction parts as [|p rest IH]; intros i c s; cbn [save_images images_from].
  - reflexivity.
  - destruct (inline_data p); [discriminate | apply IH].
Qed.

(** [main] as one equation over the resolver's outcome. *)
Lemma run_exact a h s :
  run a h s
    = match resolution h precedence with
      | Val (Some k) =>
          let out := generate_image (arg_prompt a) k (arg_include_text a)
                       (arg_output a) (arg_model a) h (after_resolver h s) in
          (status_of out.1, out.2)
      | Val None => (1, extend (after_resolver h s) (map EPrint guidance))
      | Raise _ => (1, after_resolver h s)
      end.
Proof.
  unfold run, main, after_resolver.
  unfold bind at 1. unfold print at 1. unfold emit.
  unfold bind at 1. rewrite find_api_key_exact, add_event_extend, extend_extend.
  cbn [app].
  destruct (resolution h precedence) as [[k|]|e] eqn:Hr.
  - apply resolution_val in Hr. symmetry in Hr.
    apply first_credential_nonempty in Hr.
    cbn [PyStr.truthy]. rewrite Hr. unfold bind at 1.
    destruct (generate_image _ _ _ _ _ h _) as [[[|]|e] s2]; reflexivity.
  - unfold missing_key. unfold bind at 1. rewrite print_all_exact. reflexivity.
  - reflexivity.
Qed.

(** The [try] block as one equation over the response. *)
Lemma generate_body_exact h s prompt key it o model r :
  service h (request_of prompt key it model) = Val r ->
  generate_body prompt key it o model h s
    = let s1 := extend s [ERequest (request_of prompt key it model)] in
      match candidates r with
      | None | Some [] => (Val false, extend s1 [EPrint MsgNoCandidates])
      | Some (cand :: _) =>
          match content cand with
          | None =>
              (Raise (PyExn "AttributeError"
                        "'NoneType' object has no attribute 'parts'"), s1)
          | Some parts =>
              match save_images o 0 parts 0 h s1 with
              | (Val n, s2) =>
                  (Val (negb (n =? 0)),
                   extend s2 (text_events it parts ++ [closing_event n]))
              | (Raise e, s2) => (Raise e, s2)
              end
          end
      end.
Proof.
  intros Hsvc. unfold generate_body.
  fold (request_of prompt key it model).
  unfold bind at 1. unfold generate_content. rewrite Hsvc.
  rewrite add_event_extend. cbn zeta.
  destruct (candidates r) as [[|cand cs]|]; try reflexivity.
  destruct (content cand) as [parts|]; [|reflexivity].
  unfold bind at 1. unfold ret at 1. unfold bind at 1.
  destruct (save_images o 0 parts 0 h _) as [[n|e] s2]; [|reflexivity].
  unfold bind at 1. rewrite print_text_exact. unfold closing_event.
  destruct (n =? 0); run_monad; unfold extend; cbn;
    rewrite <- !app_assoc; reflexivity.
Qed.

Lemma generate_body_result h s prompt key it o model r b s' :
  service h (request_of prompt key it model) = Val r ->
  generate_body prompt key it o model h s = (Val b, s') ->
  b = negb (image_counter r =? 0).
Proof.
  intros Hsvc. rewrite (generate_body_exact _ _ _ _ _ _ _ _ Hsvc). cbn zeta.
  unfold image_counter, first_parts.
  destruct (candidates r) as [[|cand cs]|]; try (intros [= <- _]; reflexivity).
  destruct (content cand) as [parts|]; [|discriminate].
  destruct (save_images o 0 parts 0 h _) as [[n|e] s2] eqn:Hloop; [|discriminate].
  intros [= <- _]. apply save_images_count in Hloop. subst n. reflexivity.
Qed.

(** The positions and data of the image parts depend on the
    [inline_data] attributes only. *)
Lemma images_from_ext parts parts' :
  map inline_data parts' = map inline_data parts ->
  forall i, images_from i parts' = images_from i parts.
Proof.
  revert parts'. induction parts as [|p ps IH]; intros [|p' ps']; try discriminate.
  - reflexivity.
  - cbn [map]. intros [= Hp Hps] i. cbn [images_from].
    rewrite Hp, (IH _ Hps). reflexivity.
Qed.

(** C7 (as amended): let the request complete with a response.
    [generate_image] always returns, and it returns [True] exactly when
    the image counter is positive and the [try] block ran to its end
    without an exception: an error while an image is being saved gives
    [False] although the counter is positive.  When no disk operation
    fails and the response has no candidate or a first candidate with
    content, the result is [True] exactly when the counter is positive.
    The counter does not look at text.  The exit status of the process
    is 0 when the executor is reached and returns [True], and 1
    otherwise.  With no image part, the text lines already printed stay
    in the output, followed by the failure line. *)
Theorem success_needs_images_and_no_error (h : host) (s : state)
    (prompt key : string) (it : bool) (o : option string) (model : string)
    (r : response) :
  service h (request_of prompt key it model) = Val r ->
  (exists b s', generate_image prompt key it o model h s = (Val b, s'))
  /\ (fst (generate_image prompt key it o model h s) = Val true
      <-> 0 < image_counter r
          /\ exists b s',
               generate_body prompt key it o model h
                 (extend s (header_events prompt it model)) = (Val b, s'))
  /\ (fault_free h ->
      first_parts r <> None \/ candidates r = None \/ candidates r = Some [] ->
      fst (generate_image prompt key it o model h s)
        = Val (negb (image_counter r =? 0)))
  /\ (forall parts parts',
        first_parts r = Some parts ->
        map inline_data parts' = map inline_data parts ->
        length (images parts') = image_counter r)
  /\ (forall a s0,
        fst (run a h s0)
          = match first_yield h precedence with
            | Some k =>
                status_of (fst (generate_image (arg_prompt a) k
                                  (arg_include_text a) (arg_output a)
                                  (arg_model a) h (after_resolver h s0)))
            | None => 1
            end
        /\ (fst (run a h s0) = 0 \/ fst (run a h s0) = 1))
  /\ (forall parts,
        first_parts r = Some parts -> images parts = [] ->
        generate_image prompt key it o model h s
          = (Val false,
             extend s (opening_events prompt key it model
                       ++ text_events it parts ++ [EPrint MsgNoImages]))).
Proof.
  intros Hsvc.
  assert (Hwrap : generate_image prompt key it o model h s
            = match generate_body prompt key it o model h
                      (extend s (header_events prompt it model)) with
              | (Val b, s') => (Val b, s')
              | (Raise e, s') => (Val false, extend s' [EPrint (MsgError e)])
              end).
  { unfold generate_image.
    unfold bind at 1 2 3 4. unfold print at 1 2 3 4. unfold emit, try_catch.
    change (add_event _ (add_event _ (add_event _ (add_event _ s))))
      with (extend (extend (extend (extend s [EPrint MsgGenerating])
              [EPrint (MsgModel model)]) [EPrint (MsgPrompt prompt)])
              [EPrint (MsgModalities (modalities_of it))]).
    rewrite !extend_extend.
    change ([EPrint MsgGenerating] ++ [EPrint (MsgModel model)] ++
            [EPrint (MsgPrompt prompt)] ++ [EPrint (MsgModalities (modalities_of it))])
      with (header_events prompt it model).
    destruct (generate_body _ _ _ _ _ h _) as [[b|e] s']; [reflexivity|].
    run_monad. reflexivity. }
  split; [|split; [|split; [|split; [|split]]]].
  - rewrite Hwrap.
    destruct (generate_body _ _ _ _ _ h _) as [[b|e] s']; eauto.
  - rewrite Hwrap.
    destruct (generate_body _ _ _ _ _ h _) as [[b|e] s'] eqn:Hbody; cbn [fst].
    + pose proof (generate_body_result _ _ _ _ _ _ _ _ _ _ Hsvc Hbody) as Hb.
      split.
      * intros [= ->]. split; [|eauto].
        destruct (image_counter r); [discriminate Hb | lia].
      * intros [Hpos _]. subst b.
        destruct (image_counter r); [lia | reflexivity].
    + split; [discriminate|]. intros (_ & b & s2 & [=]).
  - intros Hff Hshape. rewrite Hwrap.
    rewrite (generate_body_exact _ _ _ _ _ _ _ _ Hsvc). cbn zeta.
    unfold image_counter, first_parts in *.
    destruct (candidates r) as [[|cand cs]|]; try reflexivity.
    destruct (content cand) as [parts|].
    + rewrite (save_images_ok h o parts Hff 0 0). reflexivity.
    + destruct Hshape as [H|[H|H]]; congruence.
  - intros parts parts' Hparts Hsame. unfold image_counter. rewrite Hparts.
    unfold images. rewrite (images_from_ext _ _ Hsame). reflexivity.
  - intros a s0. clear Hwrap. rewrite run_exact. unfold first_yield.
    destruct (resolution h precedence) as [[k|]|e]; cbn zeta; cbn [fst].
    + split; [reflexivity|].
      destruct (generate_image _ k _ _ _ h _) as [[[|]|e] s2]; cbn; auto.
    + split; [reflexivity | right; reflexivity].
    + split; [reflexivity | right; reflexivity].
  - intros parts Hparts Himgs.
    rewrite (generate_image_from_loop _ _ _ _ _ _ _ _ _ Hsvc Hparts).
    rewrite (save_images_none h o parts 0 0 _ Himgs).
    cbn [Nat.eqb negb]. rewrite extend_extend. reflexivity.
Qed.

(** Text asked for and only text returned: the caption is printed, the
    run fails, and the process would exit with status 1. *)
Lemma success_needs_images_and_no_error_witness :
  generate_image "a cat" "key" true None "model" host_text_only fresh
    = (Val false,
       extend fresh (opening_events "a cat" "key" true "model"
                     ++ [EPrint MsgTextHeader; EPrint (MsgText "a caption");
                         EPrint MsgNoImages])).
Proof.
  destruct (success_needs_images_and_no_error host_text_only fresh "a cat" "key"
              true None "model" (response_of [text_part "a caption"]))
    as (_ & _ & _ & _ & _ & Htext); [reflexivity|].
  exact (Htext [text_part "a caption"] eq_refl eq_refl).
Defined.

(** The claim as first stated fails when writing an image raises: the
    request completes, both image parts are counted, and the result is
    [False]. *)
Lemma positive_counter_and_failure :
  service host_second_write_fails (request_of "a cat" "key" false "model")
    = Val (response_of [image_part [Byte.x01]; image_part [Byte.x02]])
  /\ image_counter (response_of [image_part [Byte.x01]; image_part [Byte.x02]]) = 2
  /\ fst (generate_image "a cat" "key" false None "model"
            host_second_write_fails fresh) = Val false.
Proof. repeat split; reflexivity. Qed.

(** ** Text parts when text was not asked for *)

Lemma text_output_snoc evs e :
  match e with EPrint m => is_text_message m = false | _ => True end ->
  text_output (evs ++ [e]) = text_output evs.
Proof.
  intros He. unfold text_output, printed.
  rewrite List.flat_map_app, List.filter_app.
  destruct e; cbn; rewrite ?He, app_nil_r; reflexivity.
Qed.

Lemma quiet_ret {A} (a : A) : quiet (ret a).
Proof. intros h s. reflexivity. Qed.

Lemma quiet_raise {A} e : quiet (@raise A e).
Proof. intros h s. reflexivity. Qed.

Lemma quiet_bind {A B} (m : M A) (k : A -> M B) :
  quiet m -> (forall a, quiet (k a)) -> quiet (bind m k).
Proof.
  intros Hm Hk h s. unfold bind. specialize (Hm h s).
  destruct (m h s) as [[a|e] s1]; cbn [snd] in *.
  - rewrite (Hk a h s1). exact Hm.
  - exact Hm.
Qed.

Lemma quiet_try_catch {A} (m : M A) (handler : exn -> M A) :
  quiet m -> (forall e, quiet (handler e)) -> quiet (try_catch m handler).
Proof.
  intros Hm Hk h s. unfold try_catch. specialize (Hm h s).
  destruct (m h s) as [[a|e] s1]; cbn [snd] in *.
  - exact Hm.
  - rewrite (Hk e h s1). exact Hm.
Qed.

Lemma quiet_emit e :
  match e with EPrint m => is_text_message m = false | _ => True end ->
  quiet (emit e).
Proof. intros He h s. cbn. apply text_output_snoc, He. Qed.

Lemma quiet_print m : is_text_message m = false -> quiet (print m).
Proof. intros Hm. apply quiet_emit, Hm. Qed.

Lemma quiet_now : quiet now.
Proof. intros h s. cbn. apply (text_output_snoc _ ENow I). Qed.

Lemma quiet_mkdir_p p : quiet (mkdir_p p).
Proof.
  intros h s. unfold mkdir_p. destruct (fault h (OpMkdir p)); cbn;
    apply (text_output_snoc _ (EMkdir p) I).
Qed.

Lemma quiet_write_file p data : quiet (write_file p data).
Proof.
  intros h s. unfold write_file, leave_torn.
  destruct (fault h (OpWrite p)); [destruct (torn h p)|]; cbn;
    apply (text_output_snoc _ (EWrite p data) I).
Qed.

Lemma quiet_generate_content r : quiet (generate_content r).
Proof. intros h s. cbn. apply (text_output_snoc _ (ERequest r) I). Qed.

Lemma quiet_save_part o i data : quiet (save_part o i data).
Proof.
  unfold save_part.
  apply quiet_bind.
  - assert (Hd : quiet (default_save_path i)).
    { unfold default_save_path. apply quiet_bind; [apply quiet_now|]. intros dt.
      apply quiet_bind; [apply quiet_mkdir_p|]. intros _. apply quiet_ret. }
    destruct o as [o|]; [destruct (PyStr.nonempty o)|]; auto using quiet_ret.
  - intros p. apply quiet_bind; [apply quiet_mkdir_p|]. intros _.
    apply quiet_bind; [apply quiet_write_file|]. intros _.
    apply quiet_print. reflexivity.
Qed.

Lemma quiet_save_images o parts : forall i c, quiet (save_images o i parts c).
Proof.
  induction parts as [|p rest IH]; intros i c; cbn [save_images].
  - apply quiet_ret.
  - destruct (inline_data p) as [data|]; [|apply IH].
    apply quiet_bind; [apply quiet_save_part|]. intros _. apply IH.
Qed.

(** With [include_text] unset the executor shows no generated text. *)
Lemma quiet_generate_image prompt key o model :
  quiet (generate_image prompt key false o model).
Proof.
  unfold generate_image.
  repeat (apply quiet_bind; [apply quiet_print; reflexivity|]; intros _).
  apply quiet_try_catch.
  - unfold generate_body. apply quiet_bind; [apply quiet_generate_content|].
    intros r.
    assert (Hnone : quiet (let* _ := print MsgNoCandidates in ret false)).
    { apply quiet_bind; [apply quiet_print; reflexivity|]. intros _. apply quiet_ret. }
    destruct (candidates r) as [[|cand cs]|]; try exact Hnone.
    apply quiet_bind.
    { destruct (content cand); [apply quiet_ret | apply quiet_raise]. }
    intros parts. apply quiet_bind; [apply quiet_save_images|]. intros n.
    apply quiet_bind; [apply quiet_ret|]. intros _.
    destruct (n =? 0);
      (apply quiet_bind; [apply quiet_print; reflexivity|]; intros _; apply quiet_ret).
  - intros e. apply quiet_bind; [apply quiet_print; reflexivity|]. intros _.
    apply quiet_ret.
Qed.

Lemma bind_host {A B} (m m' : M A) (k k' : A -> M B) h h' s :
  m h s = m' h' s ->
  (forall a s1, k a h s1 = k' a h' s1) ->
  bind m k h s = bind m' k' h' s.
Proof.
  intros Hm Hk. unfold bind. rewrite Hm.
  destruct (m' h' s) as [[a|e] s1]; [apply Hk | reflexivity].
Qed.

Lemma mkdir_p_host h h' p s :
  same_surroundings h h' -> mkdir_p p h s = mkdir_p p h' s.
Proof. intros (_ & Hf & _). unfold mkdir_p. rewrite Hf. reflexivity. Qed.

Lemma write_file_host h h' p data s :
  same_surroundings h h' -> write_file p data h s = write_file p data h' s.
Proof.
  intros (_ & Hf & Ht). unfold write_file, leave_torn. rewrite Hf, Ht. reflexivity.
Qed.

Lemma default_save_path_host h h' i s :
  same_surroundings h h' -> default_save_path i h s = default_save_path i h' s.
Proof.
  intros Hsame. unfold default_save_path. apply bind_host.
  - unfold now. rewrite (proj1 Hsame). reflexivity.
  - intros dt s1. apply bind_host; [apply mkdir_p_host, Hsame | reflexivity].
Qed.

Lemma save_part_host h h' o i data s :
  same_surroundings h h' ->
  save_part o i data h s = save_part o i data h' s.
Proof.
  intros Hsame. unfold save_part. apply bind_host.
  - destruct o as [o|]; [destruct (PyStr.nonempty o)|];
      try reflexivity; apply default_save_path_host, Hsame.
  - intros p s1. apply bind_host; [apply mkdir_p_host, Hsame|].
    intros _ s2. apply bind_host; [apply write_file_host, Hsame | reflexivity].
Qed.

(** The saving loop looks at the [inline_data] attributes only. *)
Lemma save_images_host h h' o parts :
  same_surroundings h h' ->
  forall parts' i c s,
    same_image_positions parts parts' ->
    save_images o i parts c h s = save_images o i parts' c h' s.
Proof.
  intros Hsame. unfold same_image_positions.
  induction parts as [|p ps IH]; intros [|p' ps'] i c s; try discriminate.
  - reflexivity.
  - cbn [map]. intros [= Hp Hps]. cbn [save_images]. rewrite <- Hp.
    destruct (inline_data p) as [data|]; [|apply IH, Hps].
    unfold bind. rewrite (save_part_host h h' _ _ _ _ Hsame).
    destruct (save_part o i data h' s) as [[[]|e] s1]; [apply IH, Hps | reflexivity].
Qed.

Lemma save_part_explicit h o q i j data s :
  explicit_path o = Some q ->
  save_part o i data h s = save_part o j data h s.
Proof.
  unfold explicit_path, save_part.
  destruct o as [o|]; [destruct (PyStr.nonempty o)|]; try discriminate.
  reflexivity.
Qed.

Lemma payloads_none h o parts :
  forall i c s, payloads parts = [] -> save_images o i parts c h s = (Val c, s).
Proof.
  induction parts as [|p rest IH]; intros i c s; cbn [save_images payloads].
  - reflexivity.
  - destruct (inline_data p); [discriminate | apply IH].
Qed.

(** With an explicit output path the saving loop looks at the image
    data only, not at where the image parts sit. *)
Lemma save_images_payloads h h' o q parts :
  explicit_path o = Some q ->
  same_surroundings h h' ->
  forall parts' i j c s,
    payloads parts = payloads parts' ->
    save_images o i parts c h s = save_images o j parts' c h' s.
Proof.
  intros Ho Hsame.
  induction parts as [|p ps IH]; intros parts' i j c s Hpay.
  - cbn [payloads] in Hpay. symmetry in Hpay.
    rewrite (payloads_none h' o parts' j c s Hpay). reflexivity.
  - cbn [save_images payloads] in *.
    destruct (inline_data p) as [data|]; [|apply IH, Hpay].
    revert j. induction parts' as [|p' ps' IH']; intros j; [discriminate Hpay|].
    cbn [save_images payloads] in *.
    destruct (inline_data p') as [data'|]; [|apply IH', Hpay].
    injection Hpay as <- Hpay.
    unfold bind.
    rewrite (save_part_explicit h o q i j _ _ Ho), (save_part_host h h' _ _ _ _ Hsame).
    destruct (save_part o j data h' s) as [[[]|e] s1]; [apply IH, Hpay | reflexivity].
Qed.

Lemma generate_image_same_loop h h' s prompt key o model r r' parts parts' :
  service h (request_of prompt key false model) = Val r ->
  service h' (request_of prompt key false model) = Val r' ->
  first_parts r = Some parts ->
  first_parts r' = Some parts' ->
  save_images o 0 parts 0 h (extend s (opening_events prompt key false model))
    = save_images o 0 parts' 0 h' (extend s (opening_events prompt key false model)) ->
  generate_image prompt key false o model h s
    = generate_image prompt key false o model h' s.
Proof.
  intros Hsvc Hsvc' Hparts Hparts' Hloop.
  rewrite (generate_image_from_loop _ _ _ _ _ _ _ _ _ Hsvc Hparts).
  rewrite (generate_image_from_loop _ _ _ _ _ _ _ _ _ Hsvc' Hparts').
  rewrite Hloop. reflexivity.
Qed.

(** C8, as amended: with [include_text] unset, text is not requested,
    no generated text is printed, and the text carried by the response
    has no effect: two runs in the same surroundings, on responses
    whose parts hold the same image data at the same positions, return
    the same result and leave the same files, directories and output.
    With an explicit output path the same holds as soon as the two
    responses hold the same image data in the same order, wherever
    their text parts sit. *)
Theorem unset_include_text_hides_text (h h' : host) (s : state)
    (prompt key : string) (o : option string) (model : string)
    (r r' : response) (parts parts' : list part) :
  same_surroundings h h' ->
  service h (request_of prompt key false model) = Val r ->
  service h' (request_of prompt key false model) = Val r' ->
  first_parts r = Some parts ->
  first_parts r' = Some parts' ->
  req_modalities (request_of prompt key false model) = [IMAGE]
  /\ text_output (trace (snd (generate_image prompt key false o model h s)))
       = text_output (trace s)
  /\ (same_image_positions parts parts' ->
      generate_image prompt key false o model h s
        = generate_image prompt key false o model h' s)
  /\ (explicit_path o <> None ->
      differ_only_in_text parts parts' ->
      generate_image prompt key false o model h s
        = generate_image prompt key false o model h' s).
Proof.
  intros Hsame Hsvc Hsvc' Hparts Hparts'.
  split; [reflexivity|]. split; [apply quiet_generate_image|]. split.
  - intros Hpos.
    apply (generate_image_same_loop _ _ _ _ _ _ _ _ _ _ _ Hsvc Hsvc' Hparts Hparts').
    apply save_images_host; assumption.
  - intros Ho Hpay.
    apply (generate_image_same_loop _ _ _ _ _ _ _ _ _ _ _ Hsvc Hsvc' Hparts Hparts').
    destruct (explicit_path o) as [q|] eqn:Hq; [|congruence].
    apply (save_images_payloads h h' o q); assumption.
Qed.

(** The same image, once with a caption and once with another one: the
    two runs cannot be told apart. *)
Lemma unset_include_text_hides_text_witness :
  generate_image "a cat" "key" false None "model" host_text_then_image fresh
    = generate_image "a cat" "key" false None "model"
        (make_host ∅ (fun _ => Missing)
           (fun _ => Val (response_of [text_part "another caption";
                                       image_part [Byte.x01]])))
        fresh.
Proof.
  destruct (unset_include_text_hides_text host_text_then_image
              (make_host ∅ (fun _ => Missing)
                 (fun _ => Val (response_of [text_part "another caption";
                                             image_part [Byte.x01]])))
              fresh "a cat" "key" None "model"
              (response_of [text_part "caption"; image_part [Byte.x01]])
              (response_of [text_part "another caption"; image_part [Byte.x01]])
              [text_part "caption"; image_part [Byte.x01]]
              [text_part "another caption"; image_part [Byte.x01]])
    as (_ & _ & Hpos & _).
  - split; [|split]; intros; reflexivity.
  - reflexivity.
  - reflexivity.
  - reflexivity.
  - reflexivity.
  - apply Hpos. reflexivity.
Defined.

(** C8, as stated, fails: two responses with the same single image
    part, one of them with a text part in front, leave different files
    behind when no output path is given, because the text part takes up
    position 0. *)
Lemma text_part_shifts_file_name :
  differ_only_in_text [image_part [Byte.x01]]
                      [text_part "caption"; image_part [Byte.x01]]
  /\ files (snd (generate_image "a cat" "key" false None "model"
                   host_one_image fresh))
       !! PyPath.Path "docs/assets/gemini-20250102-120000-0.png"
     = Some [Byte.x01]
  /\ files (snd (generate_image "a cat" "key" false None "model"
                   host_text_then_image fresh))
       !! PyPath.Path "docs/assets/gemini-20250102-120000-0.png"
     = None
  /\ files (snd (generate_image "a cat" "key" false None "model"
                   host_one_image fresh))
     <> files (snd (generate_image "a cat" "key" false None "model"
                      host_text_then_image fresh)).
Proof.
  assert (H1 : files (snd (generate_image "a cat" "key" false None "model"
                   host_one_image fresh))
       !! PyPath.Path "docs/assets/gemini-20250102-120000-0.png"
     = Some [Byte.x01]) by (vm_compute; reflexivity).
  assert (H2 : files (snd (generate_image "a cat" "key" false None "model"
                   host_text_then_image fresh))
       !! PyPath.Path "docs/assets/gemini-20250102-120000-0.png"
     = None) by (vm_compute; reflexivity).
  split; [reflexivity|]. split; [exact H1|]. split; [exact H2|].
  intros Heq. rewrite Heq, H2 in H1. discriminate H1.
Qed.

(** ** No credential *)

Lemma requests_app evs1 evs2 :
  requests (evs1 ++ evs2) = requests evs1 ++ requests evs2.
Proof. apply List.flat_map_app. Qed.

Lemma requests_prints ms : requests (map EPrint ms) = [].
Proof. induction ms; [reflexivity | assumption]. Qed.

Lemma requests_file_events h p found : requests (file_events h p found) = [].
Proof.
  unfold file_events, warning_events.
  destruct (blocked h p); [reflexivity|].
  destruct (readfs h p); [reflexivity| |];
    destruct (read_error _), (file_credential _); reflexivity.
Qed.

Lemma requests_source_events h src : requests (source_events h src) = [].
Proof.
  destruct src; cbn [source_events]; try apply requests_file_events;
    unfold env_events; destruct (credential _); reflexivity.
Qed.

Lemma requests_consulted h order :
  requests (flat_map (source_events h) order) = [].
Proof.
  induction order as [|src rest IH]; [reflexivity|].
  cbn [flat_map]. rewrite requests_app, requests_source_events, IH. reflexivity.
Qed.

(** C9: when the resolver finds no credential, the process prints the
    guidance, which names each of the four sources, and exits with
    status 1; the run consists of the resolver's events and prints only:
    no request is sent, and the disk is left as it was. *)
Theorem missing_key_exits_without_request (a : args) (h : host) (s : state) :
  fst (find_api_key h (add_event (EPrint MsgSearching) s)) = Val None ->
  exists evs,
    run a h s = (1, extend s (evs ++ map EPrint guidance))
    /\ requests (evs ++ map EPrint guidance) = []
    /\ (forall src, In (MsgGuidance src) guidance)
    /\ In MsgGetKeyUrl guidance.
Proof.
  intros Hnone. rewrite find_api_key_exact in Hnone. cbn [fst] in Hnone.
  exists (EPrint MsgSearching :: flat_map (source_events h) (consulted h precedence)).
  rewrite run_exact, Hnone. unfold after_resolver. rewrite extend_extend.
  split; [reflexivity|]. split; [|split].
  - rewrite requests_app, requests_prints, app_nil_r.
    exact (requests_consulted h (consulted h precedence)).
  - intros []; cbn; auto 10.
  - cbn; auto 10.
Qed.

(** Nothing set and no file anywhere: status 1 and no request. *)
Lemma missing_key_exits_without_request_witness :
  fst (run {| arg_prompt := "a cat"; arg_include_text := false;
              arg_output := None; arg_model := "model" |}
           host_two_images fresh) = 1
  /\ requests (trace (snd (run {| arg_prompt := "a cat"; arg_include_text := false;
                                  arg_output := None; arg_model := "model" |}
                               host_two_images fresh))) = [].
Proof.
  destruct (missing_key_exits_without_request
              {| arg_prompt := "a cat"; arg_include_text := false;
                 arg_output := None; arg_model := "model" |}
              host_two_images fresh)
    as (evs & Hrun & Hreq & _).
  - reflexivity.
  - rewrite Hrun. cbn [fst snd extend trace fresh app]. split; [reflexivity | exact Hreq].
Defined.

(** An empty [--output] value counts as no output path: the default
    destination is used. *)
Example empty_output_is_default :
  explicit_path (Some "") = None
  /\ map fst (writes (trace (snd (generate_image "a cat" "key" false (Some "")
                                    "model" host_one_image fresh))))
       = [PyPath.Path "docs/assets/gemini-20250102-120000-0.png"].
Proof. split; [reflexivity | vm_compute; reflexivity]. Qed.

(** * Further properties of the code *)

(** ** [load_env_file] on its own *)

Lemma file_credential_credential fs :
  credential (file_credential fs) = file_credential fs.
Proof.
  destruct fs as [| |ls tail]; try reflexivity. cbn [file_credential].
  destruct (scan_lines ls tail) as [r|e]; [|reflexivity].
  destruct r as [k|]; [|reflexivity]. cbn.
  destruct (PyStr.nonempty k) eqn:E; cbn; rewrite ?E; reflexivity.
Qed.

(** X1: [load_env_file] never raises.  It opens the file once, returns
    [None] or a non-empty key, and prints nothing but a warning, which it
    prints exactly when opening or reading failed; in that case the
    result is [None].  The files, the directories and the clock reading
    count are left as they were. *)
Theorem load_env_file_contract (h : host) (s : state) (p : path) :
  exists r evs,
    load_env_file p h s = (Val r, extend s evs)
    /\ accesses evs = [EOpenRead p]
    /\ (r = None \/ exists k, r = Some k /\ PyStr.nonempty k = true)
    /\ (forall e, read_error (readfs h p) = Some e ->
          r = None /\ printed evs = [MsgReadWarning p e])
    /\ (read_error (readfs h p) = None -> printed evs = []).
Proof.
  exists (file_credential (readfs h p)),
         (EOpenRead p :: warning_events p (readfs h p)).
  split; [apply load_env_file_exact|].
  unfold warning_events. split; [|split; [|split]].
  - destruct (read_error (readfs h p)); reflexivity.
  - pose proof (file_credential_credential (readfs h p)) as Hc.
    destruct (file_credential (readfs h p)) as [k|]; [right | left; reflexivity].
    exists k. split; [reflexivity|]. apply (credential_nonempty (Some k)), Hc.
  - intros e He. rewrite He. split; [|reflexivity].
    destruct (readfs h p) as [| |ls tail]; try reflexivity.
    cbn in *. destruct (scan_lines ls tail); [discriminate He | reflexivity].
  - intros ->. reflexivity.
Qed.

(** A file that cannot be opened: [None], after the warning. *)
Lemma load_env_file_contract_witness :
  exists evs,
    load_env_file (skill_env host_unreadable_skill) host_unreadable_skill fresh
      = (Val None, extend fresh evs)
    /\ printed evs = [MsgReadWarning (skill_env host_unreadable_skill)
                         (PyExn "PermissionError" "Permission denied")].
Proof.
  destruct (load_env_file_contract host_unreadable_skill fresh
              (skill_env host_unreadable_skill))
    as (r & evs & Hrun & _ & _ & Hwarn & _).
  destruct (Hwarn (PyExn "PermissionError" "Permission denied") eq_refl)
    as [-> Hprinted].
  exists evs. split; [exact Hrun | exact Hprinted].
Defined.


(** ** Which lines of a credential file count *)

Lemma prefix_inv p s :
  String.prefix p s = true -> exists rest, s = p +:+ rest.
Proof.
  revert s. induction p as [|c p IH]; intros s.
  - exists s. reflexivity.
  - destruct s as [|c' s]; [discriminate|]. cbn [String.prefix].
    destruct (ascii_dec c c') as [<-|]; [|discriminate].
    intros H. destruct (IH _ H) as (rest & ->). exists rest. reflexivity.
Qed.

Lemma key_line_shape raw :
  key_line raw = true <->
  exists name rest,
    In name recognized_names /\ PyStr.strip raw = name +:+ "=" +:+ rest.
Proof.
  unfold key_line, PyStr.startswith_any, recognized_prefixes, PyStr.startswith.
  cbn [existsb]. rewrite orb_false_r. split.
  - intros [H|H]%orb_prop; apply prefix_inv in H; destruct H as (rest & H).
    + exists "GOOGLE_API_KEY", rest. split; [left; reflexivity | exact H].
    + exists "GEMINI_API_KEY", rest. split; [right; left; reflexivity | exact H].
  - intros (name & rest & [<-|[<-|[]]] & ->); apply orb_true_iff.
    + left. exact (prefix_app "GOOGLE_API_KEY=" rest).
    + right. exact (prefix_app "GEMINI_API_KEY=" rest).
Qed.

(** The value of an already stripped line [NAME=rest]. *)
Lemma extract_key_stripped name rest :
  In name recognized_names ->
  extract_key (name +:+ "=" +:+ rest)
    = Val (strip_quote_runs (PyStr.strip rest)).
Proof.
  intros Hn. unfold extract_key.
  change (name +:+ "=" +:+ rest) with (name +:+ String "=" rest).
  rewrite split1_app; [reflexivity|].
  destruct Hn as [<-|[<-|[]]]; reflexivity.
Qed.

(** X4: a line of a credential file is recognized exactly when, once
    its surrounding whitespace is stripped, it is [GOOGLE_API_KEY=] or
    [GEMINI_API_KEY=] followed by anything.  On such a line the split at
    the first [=] always has a second piece, so the value is extracted
    without an [IndexError]; every other line (a comment, a blank line,
    another variable, [export NAME=...], [NAME =...]) is passed over. *)
Theorem recognized_lines (raw : string) :
  (key_line raw = true <->
   exists name rest,
     In name recognized_names /\ PyStr.strip raw = name +:+ "=" +:+ rest)
  /\ (forall name rest,
        In name recognized_names ->
        PyStr.strip raw = name +:+ "=" +:+ rest ->
        extract_key (PyStr.strip raw)
          = Val (strip_quote_runs (PyStr.strip rest)))
  /\ (key_line raw = false ->
      forall more tail, scan_lines (raw :: more) tail = scan_lines more tail)
  /\ (forall c, first_char (PyStr.strip raw) = Some c -> c <> "G"%char ->
        key_line raw = false)
  /\ (PyStr.strip raw = "" -> key_line raw = false).
Proof.
  split; [apply key_line_shape|]. split; [|split; [|split]].
  - intros name rest Hn ->. apply extract_key_stripped, Hn.
  - intros Hk more tail. cbn [scan_lines]. fold (key_line raw). rewrite Hk.
    reflexivity.
  - intros c Hc Hne. destruct (key_line raw) eqn:Hk; [|reflexivity].
    apply key_line_shape in Hk. destruct Hk as (name & rest & Hn & Hs).
    rewrite Hs in Hc.
    destruct Hn as [<-|[<-|[]]]; rewrite append_cons in Hc; cbn in Hc; congruence.
  - intros Hs. destruct (key_line raw) eqn:Hk; [|reflexivity].
    apply key_line_shape in Hk. destruct Hk as (name & rest & Hn & Hs').
    rewrite Hs in Hs'. destruct Hn as [<-|[<-|[]]]; discriminate Hs'.
Qed.

(** A commented-out key line is passed over. *)
Lemma recognized_lines_witness :
  scan_lines ["# GOOGLE_API_KEY=old"; "GOOGLE_API_KEY=new"] None
    = Val (Some "new").
Proof.
  destruct (recognized_lines "# GOOGLE_API_KEY=old") as (_ & _ & Hskip & Hfirst & _).
  rewrite Hskip; [reflexivity|].
  apply (Hfirst "#"%char); [reflexivity | discriminate].
Defined.

Lemma credential_idem o : credential (credential o) = credential o.
Proof.
  destruct o as [k|]; [|reflexivity]. cbn.
  destruct (PyStr.nonempty k) eqn:E; cbn; rewrite ?E; reflexivity.
Qed.

(** X2: the first recognized line of a credential file decides the
    lookup, whichever of the two names it carries: the result is its
    value (or [None] when the value is empty), whatever the later lines
    hold and even when reading further would fail, in which case no
    warning is printed. *)
Theorem first_key_line_decides (before : list string) (raw : string)
    (after : list string) (tail : option exn) (name rest : string) :
  Forall (fun l => key_line l = false) before ->
  In name recognized_names ->
  PyStr.strip raw = name +:+ "=" +:+ rest ->
  scan_lines (before ++ raw :: after) tail
    = Val (credential (Some (strip_quote_runs (PyStr.strip rest))))
  /\ (forall after' tail',
        scan_lines (before ++ raw :: after') tail'
          = scan_lines (before ++ raw :: after) tail)
  /\ (forall h s p,
        readfs h p = Readable (before ++ raw :: after) tail ->
        load_env_file p h s
          = (Val (credential (Some (strip_quote_runs (PyStr.strip rest)))),
             extend s [EOpenRead p])).
Proof.
  intros Hbefore Hn Hs.
  assert (Hk : key_line raw = true)
    by (apply key_line_shape; exists name, rest; split; assumption).
  assert (Hscan : forall after' tail',
    scan_lines (before ++ raw :: after') tail'
      = Val (credential (Some (strip_quote_runs (PyStr.strip rest))))).
  { intros after' tail'. rewrite (scan_lines_skip _ _ _ Hbefore).
    cbn [scan_lines]. fold (key_line raw). rewrite Hk, Hs.
    rewrite (extract_key_stripped _ _ Hn). reflexivity. }
  split; [apply Hscan|]. split.
  - intros after' tail'. rewrite !Hscan. reflexivity.
  - intros h s p Hfs. rewrite load_env_file_exact, Hfs.
    unfold warning_events, read_error. cbn [file_credential].
    rewrite Hscan, credential_idem. reflexivity.
Qed.

(** The GEMINI line comes first, so it wins over the GOOGLE line. *)
Lemma first_key_line_decides_witness :
  scan_lines indented_key_file None = Val (Some "first").
Proof.
  destruct (first_key_line_decides ["# local keys"]
              ("   GEMINI_API_KEY=first  " +:+ String "013" (String "010" ""))
              ["GOOGLE_API_KEY=second"] None "GEMINI_API_KEY" "first")
    as (H & _).
  - repeat constructor.
  - right. left. reflexivity.
  - reflexivity.
  - exact H.
Defined.

(** ** Indentation and line endings *)

Lemma lstrip_by_all p ws : all_chars p ws = true -> PyStr.lstrip_by p ws = "".
Proof.
  induction ws as [|c ws IH]; cbn; [reflexivity|].
  intros [Hc Hws]%andb_prop. rewrite Hc. exact (IH Hws).
Qed.

Lemma rstrip_by_all p ws : all_chars p ws = true -> PyStr.rstrip_by p ws = "".
Proof.
  induction ws as [|c ws IH]; cbn; [reflexivity|].
  intros [Hc Hws]%andb_prop. rewrite (IH Hws), Hc. reflexivity.
Qed.

Lemma strip_by_padded p ws s ws' :
  all_chars p ws = true -> all_chars p ws' = true ->
  PyStr.strip_by p (ws +:+ s +:+ ws') = PyStr.strip_by p s.
Proof.
  intros Hws Hws'. unfold PyStr.strip_by.
  rewrite lstrip_by_app, (lstrip_by_all _ _ Hws).
  rewrite lstrip_by_app, (lstrip_by_all _ _ Hws').
  destruct (PyStr.lstrip_by p s) as [|c r] eqn:E; [reflexivity|].
  rewrite rstrip_by_app, (rstrip_by_all _ _ Hws'). reflexivity.
Qed.

(** X3: whitespace around a line of a credential file, be it
    indentation, trailing blanks or the line ending, changes nothing:
    the line is recognized or not, and yields the same value, as the
    line without it. *)
Theorem surrounding_whitespace_is_ignored (ws raw ws' : string) :
  all_chars PyStr.isspace ws = true ->
  all_chars PyStr.isspace ws' = true ->
  PyStr.strip (ws +:+ raw +:+ ws') = PyStr.strip raw
  /\ key_line (ws +:+ raw +:+ ws') = key_line raw
  /\ (forall more tail,
        scan_lines ((ws +:+ raw +:+ ws') :: more) tail
          = scan_lines (raw :: more) tail).
Proof.
  intros Hws Hws'.
  assert (Hs : PyStr.strip (ws +:+ raw +:+ ws') = PyStr.strip raw)
    by (apply strip_by_padded; assumption).
  split; [exact Hs|]. split.
  - unfold key_line. rewrite Hs. reflexivity.
  - intros more tail. cbn [scan_lines]. rewrite Hs. reflexivity.
Qed.

(** A tab-indented line with a CR LF ending reads like the bare line. *)
Lemma surrounding_whitespace_is_ignored_witness :
  scan_lines [String "009" " " +:+ "GOOGLE_API_KEY=abc"
              +:+ String "013" (String "010" "")] None
    = scan_lines ["GOOGLE_API_KEY=abc"] None.
Proof.
  destruct (surrounding_whitespace_is_ignored (String "009" " ")
              "GOOGLE_API_KEY=abc" (String "013" (String "010" "")))
    as (_ & _ & H); [reflexivity | reflexivity |].
  exact (H [] None).
Defined.

(** ** An empty environment variable *)

Lemma same_sources_same_order h h' order :
  (forall src, probe_error h src = probe_error h' src) ->
  (forall src, yield h src = yield h' src) ->
  (forall src, source_events h src = source_events h' src) ->
  resolution h order = resolution h' order
  /\ flat_map (source_events h) (consulted h order)
     = flat_map (source_events h') (consulted h' order).
Proof.
  intros Hp Hy He. induction order as [|src rest [IH1 IH2]]; [split; reflexivity|].
  cbn [resolution consulted flat_map]. rewrite <- Hp, <- Hy, <- He.
  destruct (probe_error h src); [split; reflexivity|].
  destruct (yield h src); [split; reflexivity|].
  rewrite IH1, IH2. split; reflexivity.
Qed.

Lemma credential_without_empty (env : gmap string string) name n :
  env !! name = Some "" ->
  credential (delete name env !! n) = credential (env !! n).
Proof.
  intros Hempty. destruct (decide (name = n)) as [<-|Hne].
  - rewrite lookup_delete_eq, Hempty. reflexivity.
  - rewrite lookup_delete_ne by exact Hne. reflexivity.
Qed.

(** X5: an environment variable set to the empty string counts as not
    set: the resolver does exactly what it does when the variable is
    removed from the environment. *)
Theorem empty_variable_is_unset (h : host) (s : state) (name : string) :
  environ h !! name = Some "" ->
  find_api_key h s
    = find_api_key (with_environ (delete name (environ h)) h) s.
Proof.
  intros Hempty. rewrite !find_api_key_exact.
  destruct (same_sources_same_order h
              (with_environ (delete name (environ h)) h) precedence)
    as [-> ->]; [| | |reflexivity].
  - intros []; reflexivity.
  - intros []; cbn [yield with_environ environ]; try reflexivity;
      symmetry; apply credential_without_empty, Hempty.
  - intros []; cbn [source_events]; try reflexivity;
      unfold env_events; cbn [with_environ environ];
      rewrite (credential_without_empty _ _ _ Hempty); reflexivity.
Qed.

(** [GOOGLE_API_KEY] is empty: the resolver falls through to
    [GEMINI_API_KEY]. *)
Lemma empty_variable_is_unset_witness :
  fst (find_api_key host_empty_primary fresh) = Val (Some "legacy").
Proof.
  rewrite (empty_variable_is_unset host_empty_primary fresh "GOOGLE_API_KEY");
    reflexivity.
Defined.

(** ** The executor around its [try] block *)

Lemma generate_image_wrap h s prompt key it o model :
  generate_image prompt key it o model h s
    = match generate_body prompt key it o model h
              (extend s (header_events prompt it model)) with
      | (Val b, s') => (Val b, s')
      | (Raise e, s') => (Val false, extend s' [EPrint (MsgError e)])
      end.
Proof.
  unfold generate_image.
  unfold bind at 1 2 3 4. unfold print at 1 2 3 4. unfold emit, try_catch.
  change (add_event _ (add_event _ (add_event _ (add_event _ s))))
    with (extend (extend (extend (extend s [EPrint MsgGenerating])
            [EPrint (MsgModel model)]) [EPrint (MsgPrompt prompt)])
            [EPrint (MsgModalities (modalities_of it))]).
  rewrite !extend_extend.
  change ([EPrint MsgGenerating] ++ [EPrint (MsgModel model)] ++
          [EPrint (MsgPrompt prompt)] ++ [EPrint (MsgModalities (modalities_of it))])
    with (header_events prompt it model).
  destruct (generate_body _ _ _ _ _ h _) as [[b|e] s']; [reflexivity|].
  run_monad. reflexivity.
Qed.

Lemma generate_image_service_error h s prompt key it o model e :
  service h (request_of prompt key it model) = Raise e ->
  generate_image prompt key it o model h s
    = (Val false,
       extend s (opening_events prompt key it model ++ [EPrint (MsgError e)])).
Proof.
  intros Hsvc. rewrite generate_image_wrap. unfold generate_body.
  fold (request_of prompt key it model).
  unfold bind at 1. unfold generate_content. rewrite Hsvc.
  rewrite add_event_extend, !extend_extend. reflexivity.
Qed.

(** X6: when the client or the request raises, [generate_image]
    catches the exception, prints it and returns [False]; nothing was
    written and no directory was created. *)
Theorem request_error_is_reported (h : host) (s : state)
    (prompt key : string) (it : bool) (o : option string) (model : string)
    (e : exn) :
  service h (request_of prompt key it model) = Raise e ->
  exists evs,
    generate_image prompt key it o model h s = (Val false, extend s evs)
    /\ last (printed evs) = Some (MsgError e)
    /\ writes evs = [] /\ mkdirs evs = []
    /\ files (extend s evs) = files s /\ dirs (extend s evs) = dirs s.
Proof.
  intros Hsvc.
  exists (opening_events prompt key it model ++ [EPrint (MsgError e)]).
  split; [apply generate_image_service_error, Hsvc|].
  repeat split.
Qed.

(** The service is offline: failure, and an empty disk. *)
Lemma request_error_is_reported_witness :
  fst (generate_image "a cat" "key" true (Some "cat.png") "model"
         (make_host ∅ (fun _ => Missing) offline) fresh) = Val false
  /\ files (snd (generate_image "a cat" "key" true (Some "cat.png") "model"
                   (make_host ∅ (fun _ => Missing) offline) fresh)) = ∅.
Proof.
  destruct (request_error_is_reported (make_host ∅ (fun _ => Missing) offline)
              fresh "a cat" "key" true (Some "cat.png") "model"
              (PyExn "ConnectionError" "offline"))
    as (evs & -> & _ & _ & _ & Hf & _); [reflexivity|].
  split; [reflexivity | exact Hf].
Defined.

(** ** Requests *)

Lemma requests_snoc evs e :
  match e with ERequest _ => False | _ => True end ->
  requests (evs ++ [e]) = requests evs.
Proof.
  intros He. rewrite requests_app. destruct e; try contradiction;
    cbn; apply app_nil_r.
Qed.

Lemma no_request_ret {A} (a : A) : no_request (ret a).
Proof. intros h s. reflexivity. Qed.

Lemma no_request_raise {A} e : no_request (@raise A e).
Proof. intros h s. reflexivity. Qed.

Lemma no_request_bind {A B} (m : M A) (k : A -> M B) :
  no_request m -> (forall a, no_request (k a)) -> no_request (bind m k).
Proof.
  intros Hm Hk h s. unfold bind. specialize (Hm h s).
  destruct (m h s) as [[a|e] s1]; cbn [snd] in *.
  - rewrite (Hk a h s1). exact Hm.
  - exact Hm.
Qed.

Lemma no_request_print m : no_request (print m).
Proof. intros h s. cbn. apply (requests_snoc _ (EPrint m) I). Qed.

Lemma no_request_now : no_request now.
Proof. intros h s. cbn. apply (requests_snoc _ ENow I). Qed.

Lemma no_request_mkdir_p p : no_request (mkdir_p p).
Proof.
  intros h s. unfold mkdir_p. destruct (fault h (OpMkdir p)); cbn;
    apply (requests_snoc _ (EMkdir p) I).
Qed.

Lemma no_request_write_file p data : no_request (write_file p data).
Proof.
  intros h s. unfold write_file, leave_torn.
  destruct (fault h (OpWrite p)); [destruct (torn h p)|]; cbn;
    apply (requests_snoc _ (EWrite p data) I).
Qed.

Lemma no_request_save_part o i data : no_request (save_part o i data).
Proof.
  unfold save_part.
  apply no_request_bind.
  - assert (Hd : no_request (default_save_path i)).
    { unfold default_save_path. apply no_request_bind; [apply no_request_now|].
      intros dt. apply no_request_bind; [apply no_request_mkdir_p|].
      intros _. apply no_request_ret. }
    destruct o as [o|]; [destruct (PyStr.nonempty o)|]; auto using no_request_ret.
  - intros p. apply no_request_bind; [apply no_request_mkdir_p|]. intros _.
    apply no_request_bind; [apply no_request_write_file|]. intros _.
    apply no_request_print.
Qed.

Lemma no_request_save_images o parts :
  forall i c, no_request (save_images o i parts c).
Proof.
  induction parts as [|p rest IH]; intros i c; cbn [save_images].
  - apply no_request_ret.
  - destruct (inline_data p) as [data|]; [|apply IH].
    apply no_request_bind; [apply no_request_save_part|]. intros _. apply IH.
Qed.

Lemma no_request_print_texts ts : no_request (print_texts ts).
Proof.
  induction ts as [|t rest IH]; cbn [print_texts]; [apply no_request_ret|].
  apply no_request_bind; [apply no_request_print | intros _; exact IH].
Qed.

Lemma no_request_print_text it parts : no_request (print_text it parts).
Proof.
  unfold print_text. destruct it; [|apply no_request_ret].
  destruct (text_parts parts); [apply no_request_ret|].
  apply no_request_bind; [apply no_request_print|]. intros _.
  apply no_request_print_texts.
Qed.

(** What follows the answer of the service sends nothing. *)
Lemma no_request_after_response it o (r : response) :
  no_request
    (match candidates r with
     | None | Some [] => let* _ := print MsgNoCandidates in ret false
     | Some (candidate :: _) =>
         let* parts :=
           match content candidate with
           | Some ps => ret ps
           | None => raise (PyExn "AttributeError"
                              "'NoneType' object has no attribute 'parts'")
           end in
         let* image_count := save_images o 0 parts 0 in
         let* _ := print_text it parts in
         if image_count =? 0 then
           let* _ := print MsgNoImages in ret false
         else
           let* _ := print (MsgSuccess image_count) in ret true
     end).
Proof.
  assert (Hnone : no_request (let* _ := print MsgNoCandidates in ret false)).
  { apply no_request_bind; [apply no_request_print|]. intros _. apply no_request_ret. }
  destruct (candidates r) as [[|cand cs]|]; try exact Hnone.
  apply no_request_bind.
  { destruct (content cand); [apply no_request_ret | apply no_request_raise]. }
  intros parts. apply no_request_bind; [apply no_request_save_images|]. intros n.
  apply no_request_bind; [apply no_request_print_text|]. intros _.
  destruct (n =? 0);
    (apply no_request_bind; [apply no_request_print|]; intros _; apply no_request_ret).
Qed.

(** The executor sends its one request and no other. *)
Lemma generate_image_requests h s prompt key it o model :
  requests (trace (generate_image prompt key it o model h s).2)
    = requests (trace s) ++ [request_of prompt key it model].
Proof.
  rewrite generate_image_wrap. unfold generate_body.
  fold (request_of prompt key it model).
  match goal with |- context [bind (generate_content _) ?K] => set (k := K) end.
  unfold bind at 1. unfold generate_content.
  set (s1 := add_event _ (extend s _)).
  assert (Hs1 : requests (trace s1)
                = requests (trace s) ++ [request_of prompt key it model]).
  { unfold s1. cbn. rewrite !requests_app. cbn. rewrite app_nil_r. reflexivity. }
  destruct (service h (request_of prompt key it model)) as [r|e].
  - pose proof (no_request_after_response it o r h s1
                  : requests (trace (k r h s1).2) = requests (trace s1)) as Hrest.
    destruct (k r h s1) as [[b|e] s2]; cbn [snd] in *.
    + rewrite Hrest. exact Hs1.
    + cbn. rewrite (requests_snoc _ (EPrint (MsgError e)) I), Hrest. exact Hs1.
  - cbn [snd]. cbn [extend trace].
    rewrite (requests_snoc _ (EPrint (MsgError e)) I). exact Hs1.
Qed.

(** X7: whatever the service answers and whatever happens on the disk,
    a call of [generate_image] sends exactly one request, with the
    prompt, the model and the key it was given; there is no second
    attempt.  The request always asks for images, and for text exactly
    when [include_text] is set. *)
Theorem one_request_per_call (h : host) (s : state)
    (prompt key : string) (it : bool) (o : option string) (model : string) :
  requests (trace (generate_image prompt key it o model h s).2)
    = requests (trace s)
      ++ [{| req_api_key := key; req_model := model; req_contents := prompt;
             req_modalities := modalities_of it |}]
  /\ In IMAGE (modalities_of it)
  /\ (In TEXT (modalities_of it) <-> it = true).
Proof.
  split; [apply generate_image_requests|]. split; [left; reflexivity|].
  destruct it; cbn; split; intros H; try reflexivity; try discriminate.
  - right. left. reflexivity.
  - destruct H as [H|[]]. discriminate H.
Qed.

(** Even when a write fails, one request was sent. *)
Lemma one_request_per_call_witness :
  requests (trace (generate_image "a cat" "key" false None "model"
                     host_second_write_fails fresh).2)
    = [{| req_api_key := "key"; req_model := "model"; req_contents := "a cat";
          req_modalities := [IMAGE] |}].
Proof.
  destruct (one_request_per_call host_second_write_fails fresh "a cat" "key"
              false None "model") as [H _].
  exact H.
Defined.


(** X13: a run of the script sends no request when no credential is
    found, and otherwise exactly one, which carries the resolved
    credential and the prompt, model and text flag of the command
    line. *)
Theorem run_requests (a : args) (h : host) (s : state) :
  requests (trace (run a h s).2)
    = requests (trace s)
      ++ match first_yield h precedence with
         | Some k =>
             [{| req_api_key := k; req_model := arg_model a;
                 req_contents := arg_prompt a;
                 req_modalities := modalities_of (arg_include_text a) |}]
         | None => []
         end.
Proof.
  assert (Hres : requests (trace (after_resolver h s)) = requests (trace s)).
  { unfold after_resolver. cbn [extend trace]. rewrite requests_app.
    cbn [requests flat_map app].
    change (flat_map _ (flat_map (source_events h) (consulted h precedence)))
      with (requests (flat_map (source_events h) (consulted h precedence))).
    rewrite requests_consulted. apply app_nil_r. }
  rewrite run_exact. unfold first_yield.
  destruct (resolution h precedence) as [[k|]|e].
  - cbn zeta. cbn [snd]. rewrite generate_image_requests, Hres. reflexivity.
  - cbn [snd extend trace]. rewrite requests_app, requests_prints, Hres.
    rewrite !app_nil_r. reflexivity.
  - cbn [snd]. rewrite Hres, app_nil_r. reflexivity.
Qed.

(** The key of the environment is the key of the request. *)
Lemma run_requests_witness :
  requests (trace (run {| arg_prompt := "a cat"; arg_include_text := true;
                          arg_output := None; arg_model := "model" |}
                       host_ready fresh).2)
    = [{| req_api_key := "primary"; req_model := "model";
          req_contents := "a cat"; req_modalities := [IMAGE; TEXT] |}].
Proof.
  exact (run_requests {| arg_prompt := "a cat"; arg_include_text := true;
                         arg_output := None; arg_model := "model" |}
                      host_ready fresh).
Defined.


(** ** A run that returns [True] *)

(** Take the cases of the disk operations in a hypothesis, outermost
    first. *)
Ltac case_faults H :=
  repeat match type of H with
         | context [fault ?h ?op] =>
             let E := fresh "Hfault" in
             destruct (fault h op) eqn:E;
             cbn [fst snd ticks files dirs trace] in H
         end.

Lemma save_part_val h o i data s u s' :
  save_part o i data h s = (Val u, s') ->
  s' = replay (save_events h o (ticks s) [(i, data)]) s.
Proof.
  unfold save_part, default_save_path. cbn [save_events]. unfold explicit_path.
  destruct o as [o|]; [destruct (PyStr.nonempty o)|];
    run_monad; intros H; case_faults H; try discriminate H;
    injection H as _ <-; reflexivity.
Qed.

(** When the loop returns, every image part was saved. *)
Lemma save_images_val h o parts :
  forall i c s n s',
    save_images o i parts c h s = (Val n, s') ->
    s' = replay (save_events h o (ticks s) (images_from i parts)) s.
Proof.
  induction parts as [|p rest IH]; intros i c s n s'; cbn [save_images images_from].
  - intros [= _ <-]. reflexivity.
  - destruct (inline_data p) as [data|]; [|apply IH].
    unfold bind at 1.
    destruct (save_part o i data h s) as [[[]|e] s1] eqn:Hpart; [|discriminate].
    apply save_part_val in Hpart. intros Hrest. apply IH in Hrest.
    subst s1 s'. cbn [save_events].
    destruct (explicit_path o) as [q|].
    + rewrite app_nil_r, replay_app. reflexivity.
    + rewrite app_nil_r, (app_assoc _ _ (save_events _ _ _ _)), replay_app.
      reflexivity.
Qed.

Lemma opening_prints prompt key it model :
  Forall (fun e => match e with ENow | EMkdir _ | EWrite _ _ => False | _ => True end)
    (opening_events prompt key it model).
Proof. repeat constructor. Qed.

(** A [True] result, spelled out. *)
Lemma generate_image_true h s prompt key it o model :
  fst (generate_image prompt key it o model h s) = Val true ->
  exists r parts,
    service h (request_of prompt key it model) = Val r
    /\ first_parts r = Some parts
    /\ images parts <> []
    /\ snd (generate_image prompt key it o model h s)
       = replay (opening_events prompt key it model
                 ++ save_events h o (ticks s) (images parts)
                 ++ text_events it parts
                 ++ [EPrint (MsgSuccess (length (images parts)))]) s.
Proof.
  destruct (service h (request_of prompt key it model)) as [r|e] eqn:Hsvc.
  2:{ rewrite (generate_image_service_error _ _ _ _ _ _ _ _ Hsvc). discriminate. }
  destruct (first_parts r) as [parts|] eqn:Hparts.
  2:{ rewrite generate_image_wrap, (generate_body_exact _ _ _ _ _ _ _ _ Hsvc).
      cbn zeta. unfold first_parts in Hparts.
      destruct (candidates r) as [[|cand cs]|]; try discriminate.
      rewrite Hparts. discriminate. }
  rewrite (generate_image_from_loop _ _ _ _ _ _ _ _ _ Hsvc Hparts).
  destruct (save_images o 0 parts 0 h _) as [[n|e] s2] eqn:Hloop; [|discriminate].
  pose proof (save_images_count _ _ _ _ _ _ _ _ Hloop) as Hn.
  apply save_images_val in Hloop. cbn [Nat.add] in Hn.
  fold (images parts) in Hn, Hloop. subst n s2. cbn [fst snd].
  intros [= Hb]. exists r, parts. split; [reflexivity|]. split; [exact Hparts|].
  destruct (images parts) as [|img imgs] eqn:Himgs; [discriminate Hb|].
  split; [discriminate|].
  rewrite <- Himgs. unfold closing_event. rewrite Himgs. cbn [length Nat.eqb].
  rewrite <- (replay_prints (opening_events prompt key it model))
    by apply opening_prints.
  cbn [extend ticks].
  rewrite <- (replay_prints (text_events it parts ++ _)).
  - rewrite !replay_app. reflexivity.
  - apply Forall_app. split; [apply text_events_prints | repeat constructor].
Qed.

(** X8: [generate_image] returns [True] only when the service answered,
    the first candidate holds at least one image part, and every image
    part was saved: the writes of the call are one per image part, in
    order, each at its destination, with no failed operation in
    between, and the success line is the last thing printed. *)
Theorem true_means_all_saved (h : host) (s : state)
    (prompt key : string) (it : bool) (o : option string) (model : string) :
  fst (generate_image prompt key it o model h s) = Val true ->
  exists r parts evs,
    service h (request_of prompt key it model) = Val r
    /\ first_parts r = Some parts
    /\ 0 < length (images parts)
    /\ snd (generate_image prompt key it o model h s) = replay evs s
    /\ writes evs = destinations h o (ticks s) (images parts)
    /\ length (writes evs) = length (images parts)
    /\ last (printed evs) = Some (MsgSuccess (length (images parts))).
Proof.
  intros Htrue.
  destruct (generate_image_true _ _ _ _ _ _ _ Htrue)
    as (r & parts & Hsvc & Hparts & Hne & Hstate).
  exists r, parts. eexists. split; [exact Hsvc|]. split; [exact Hparts|].
  split; [destruct (images parts); [congruence | cbn; lia]|].
  split; [exact Hstate|].
  assert (Hw : writes (opening_events prompt key it model
                       ++ save_events h o (ticks s) (images parts)
                       ++ text_events it parts
                       ++ [EPrint (MsgSuccess (length (images parts)))])
               = destinations h o (ticks s) (images parts)).
  { rewrite !writes_app, writes_save_events, writes_text_events.
    cbn. rewrite app_nil_r. reflexivity. }
  split; [exact Hw|]. split.
  - rewrite Hw. clear. generalize (ticks s).
    induction (images parts) as [|[i d] imgs IH]; intros t; [reflexivity|].
    cbn [destinations]. destruct (explicit_path o); cbn [length]; rewrite IH;
      reflexivity.
  - unfold printed. rewrite !List.flat_map_app. cbn [flat_map app].
    rewrite !app_assoc. apply last_snoc.
Qed.

(** Two image parts, both written: the call returns [True]. *)
Lemma true_means_all_saved_witness :
  exists evs,
    snd (generate_image "a cat" "key" false None "model" host_two_images fresh)
      = replay evs fresh
    /\ length (writes evs) = 2.
Proof.
  destruct (true_means_all_saved host_two_images fresh "a cat" "key" false
              None "model")
    as (r & parts & evs & Hsvc & Hparts & _ & Hstate & _ & Hlen & _).
  - vm_compute. reflexivity.
  - exists evs. split; [exact Hstate|]. rewrite Hlen.
    injection Hsvc as <-. injection Hparts as <-. reflexivity.
Defined.

(** X14: the script exits with status 0 only when a credential was
    found, the service answered, the first candidate holds at least one
    image part and every image part was written; and when no disk
    operation fails, that is also enough for status 0. *)
Theorem exit_zero_means_saved (a : args) (h : host) (s : state) :
  (fst (run a h s) = 0 ->
   exists k r parts evs,
     first_yield h precedence = Some k
     /\ service h (request_of (arg_prompt a) k (arg_include_text a) (arg_model a))
        = Val r
     /\ first_parts r = Some parts
     /\ 0 < length (images parts)
     /\ snd (run a h s) = replay evs (after_resolver h s)
     /\ writes evs
        = destinations h (arg_output a) (ticks s) (images parts))
  /\ (forall k r parts,
        fault_free h ->
        first_yield h precedence = Some k ->
        service h (request_of (arg_prompt a) k (arg_include_text a) (arg_model a))
          = Val r ->
        first_parts r = Some parts ->
        0 < length (images parts) ->
        fst (run a h s) = 0).
Proof.
  split.
  - rewrite run_exact. unfold first_yield.
    destruct (resolution h precedence) as [[k|]|e]; [|discriminate..].
    cbn zeta. cbn [fst snd]. intros Hstatus.
    assert (Htrue : fst (generate_image (arg_prompt a) k (arg_include_text a)
                           (arg_output a) (arg_model a) h (after_resolver h s))
                    = Val true).
    { destruct (fst (generate_image _ _ _ _ _ h _)) as [[|]|e];
        [reflexivity | discriminate Hstatus | discriminate Hstatus]. }
    destruct (generate_image_true _ _ _ _ _ _ _ Htrue)
      as (r & parts & Hsvc & Hparts & Hne & Hstate).
    exists k, r, parts. eexists.
    split; [reflexivity|]. split; [exact Hsvc|]. split; [exact Hparts|].
    split; [destruct (images parts); [congruence | cbn; lia]|].
    split; [exact Hstate|].
    rewrite !writes_app, writes_save_events, writes_text_events.
    cbn. rewrite app_nil_r. reflexivity.
  - intros k r parts Hff Hk Hsvc Hparts Hpos.
    rewrite run_exact. unfold first_yield in Hk.
    destruct (resolution h precedence) as [r0|e]; [|discriminate Hk].
    subst r0. cbn zeta. cbn [fst].
    rewrite (generate_image_ok _ _ _ _ _ _ _ _ _ Hff Hsvc Hparts). cbn [fst].
    destruct (length (images parts)); [lia | reflexivity].
Qed.

(** A key in the environment and two image parts: status 0. *)
Lemma exit_zero_means_saved_witness :
  fst (run {| arg_prompt := "a cat"; arg_include_text := true;
              arg_output := None; arg_model := "model" |}
           host_ready fresh) = 0.
Proof.
  destruct (exit_zero_means_saved
              {| arg_prompt := "a cat"; arg_include_text := true;
                 arg_output := None; arg_model := "model" |}
              host_ready fresh) as [_ H].
  apply (H "primary"
           (response_of [text_part "caption"; image_part [Byte.x01];
                         image_part [Byte.x02]])
           [text_part "caption"; image_part [Byte.x01]; image_part [Byte.x02]]).
  - intros op. reflexivity.
  - reflexivity.
  - reflexivity.
  - reflexivity.
  - cbn. lia.
Defined.

(** ** A disk operation that fails *)

Lemma trace_leave_torn h p data s : trace (leave_torn h p data s) = trace s.
Proof. unfold leave_torn. destruct (torn h p); reflexivity. Qed.

Lemma ticks_leave_torn h p data s : ticks (leave_torn h p data s) = ticks s.
Proof. unfold leave_torn. destruct (torn h p); reflexivity. Qed.

Lemma dirs_leave_torn h p data s : dirs (leave_torn h p data s) = dirs s.
Proof. unfold leave_torn. destruct (torn h p); reflexivity. Qed.

(** A write that raised touches no other file. *)
Lemma files_leave_torn_other h p data s q :
  q <> p -> files (leave_torn h p data s) !! q = files s !! q.
Proof.
  intros Hne. unfold leave_torn. destruct (torn h p); [|reflexivity].
  cbn [put_file files]. apply lookup_insert_ne. congruence.
Qed.

(** The loop over the parts is the loop over the image parts. *)
Lemma save_images_as_imgs o parts :
  forall i c h s,
    save_images o i parts c h s = save_imgs o (images_from i parts) c h s.
Proof.
  induction parts as [|p rest IH]; intros i c h s; cbn [save_images images_from].
  - reflexivity.
  - destruct (inline_data p) as [data|]; [|apply IH].
    cbn [save_imgs]. unfold bind.
    destruct (save_part o i data h s) as [[[]|e] s1]; [apply IH | reflexivity].
Qed.

Lemma parent_of_default h t i :
  PyPath.parent (default_destination h t i) = assets_dir.
Proof. reflexivity. Qed.

Lemma save_part_default_ok h o i data s :
  explicit_path o = None ->
  fault h (OpMkdir assets_dir) = None ->
  fault h (OpWrite (default_destination h (ticks s) i)) = None ->
  save_part o i data h s
    = (Val tt, replay (save_events h o (ticks s) [(i, data)]) s).
Proof.
  intros Ho Hmk Hw. cbn [save_events]. rewrite Ho.
  assert (Hdefault :
    (let* save_path := default_save_path i in
     let* _ := mkdir_p (PyPath.parent save_path) in
     let* _ := write_file save_path data in
     print (MsgImageSaved save_path)) h s
    = (Val tt,
       replay (([ENow; EMkdir assets_dir]
                ++ save_events_at (default_destination h (ticks s) i) data) ++ []) s)).
  { unfold default_save_path. unfold bind at 1 2. unfold now at 1.
    unfold bind at 1. unfold mkdir_p at 1. rewrite Hmk.
    unfold ret at 1. cbn [ticks add_event add_tick].
    fold (default_destination h (ticks s) i).
    unfold bind at 1. unfold mkdir_p at 1.
    rewrite parent_of_default, Hmk.
    unfold bind at 1. unfold write_file at 1. rewrite Hw. reflexivity. }
  unfold save_part. unfold explicit_path in Ho.
  destruct o as [o|]; [destruct (PyStr.nonempty o); [discriminate Ho|]|];
    rewrite Hdefault, <- app_assoc; reflexivity.
Qed.

Lemma save_part_default_write_fails h o i data s e :
  explicit_path o = None ->
  fault h (OpMkdir assets_dir) = None ->
  fault h (OpWrite (default_destination h (ticks s) i)) = Some e ->
  save_part o i data h s
    = (Raise e,
       leave_torn h (default_destination h (ticks s) i) data
         (add_event (EWrite (default_destination h (ticks s) i) data)
            (replay [ENow; EMkdir assets_dir; EMkdir assets_dir] s))).
Proof.
  intros Ho Hmk Hw.
  assert (Hdefault :
    (let* save_path := default_save_path i in
     let* _ := mkdir_p (PyPath.parent save_path) in
     let* _ := write_file save_path data in
     print (MsgImageSaved save_path)) h s
    = (Raise e,
       leave_torn h (default_destination h (ticks s) i) data
         (add_event (EWrite (default_destination h (ticks s) i) data)
            (replay [ENow; EMkdir assets_dir; EMkdir assets_dir] s)))).
  { unfold default_save_path. unfold bind at 1 2. unfold now at 1.
    unfold bind at 1. unfold mkdir_p at 1. rewrite Hmk.
    unfold ret at 1. cbn [ticks add_event add_tick].
    fold (default_destination h (ticks s) i).
    unfold bind at 1. unfold mkdir_p at 1.
    rewrite parent_of_default, Hmk.
    unfold bind at 1. unfold write_file at 1. rewrite Hw. reflexivity. }
  unfold save_part. unfold explicit_path in Ho.
  destruct o as [o|]; [destruct (PyStr.nonempty o); [discriminate Ho|]|];
    exact Hdefault.
Qed.

(** X9: nothing is rolled back.  With two image parts and no explicit
    output path, when the first image is saved and the write of the
    second one raises, [generate_image] prints the error and returns
    [False], although the first file is on disk with its data. *)
Theorem failed_write_keeps_earlier_file (h : host) (s : state)
    (prompt key : string) (it : bool) (o : option string) (model : string)
    (r : response) (parts : list part) (i j : nat) (d1 d2 : bytes) (e : exn) :
  explicit_path o = None ->
  service h (request_of prompt key it model) = Val r ->
  first_parts r = Some parts ->
  images parts = [(i, d1); (j, d2)] ->
  fault h (OpMkdir assets_dir) = None ->
  fault h (OpWrite (default_destination h (ticks s) i)) = None ->
  fault h (OpWrite (default_destination h (S (ticks s)) j)) = Some e ->
  exists s',
    generate_image prompt key it o model h s = (Val false, s')
    /\ files s' !! default_destination h (ticks s) i = Some d1
    /\ trace s'
       = trace s
         ++ opening_events prompt key it model
         ++ save_events h o (ticks s) [(i, d1)]
         ++ [ENow; EMkdir assets_dir; EMkdir assets_dir;
             EWrite (default_destination h (S (ticks s)) j) d2;
             EPrint (MsgError e)].
Proof.
  intros Ho Hsvc Hparts Himgs Hmk Hw1 Hw2.
  rewrite (generate_image_from_loop _ _ _ _ _ _ _ _ _ Hsvc Hparts).
  rewrite save_images_as_imgs. unfold images in Himgs. rewrite Himgs.
  cbn [save_imgs]. unfold bind at 1.
  rewrite (save_part_default_ok h o i d1
             (extend s (opening_events prompt key it model)) Ho Hmk Hw1).
  unfold bind at 1.
  set (s1 := replay (save_events h o _ [(i, d1)]) _).
  assert (Ht1 : ticks s1 = S (ticks s)).
  { unfold s1. cbn [save_events]. rewrite Ho. reflexivity. }
  rewrite (save_part_default_write_fails h o j d2 s1 e Ho Hmk)
    by (rewrite Ht1; exact Hw2).
  assert (Hne : default_destination h (ticks s) i
                <> default_destination h (S (ticks s)) j).
  { intros Heq. apply div_inj, default_name_index_inj in Heq. subst j.
    destruct (images_from_inv _ _ _ _ _ Himgs) as (parts' & _ & Hrest & _).
    symmetry in Hrest.
    destruct (images_from_inv _ _ _ _ _ Hrest) as (_ & Hle & _). lia. }
  eexists. split; [reflexivity|]. rewrite Ht1.
  cbn [extend files trace]. rewrite trace_leave_torn.
  rewrite (files_leave_torn_other _ _ _ _ _ Hne). unfold s1.
  cbn [save_events]. rewrite Ho. cbn. split; [apply lookup_insert_eq|].
  rewrite <- !app_assoc. reflexivity.
Qed.

(** The second default file cannot be written: failure, with the first
    file on disk. *)
Lemma failed_write_keeps_earlier_file_witness :
  fst (generate_image "a cat" "key" false None "model"
         host_second_write_fails fresh) = Val false
  /\ files (snd (generate_image "a cat" "key" false None "model"
                   host_second_write_fails fresh))
       !! PyPath.Path "docs/assets/gemini-20250102-120000-0.png"
     = Some [Byte.x01].
Proof.
  destruct (failed_write_keeps_earlier_file host_second_write_fails fresh
              "a cat" "key" false None "model"
              (response_of [image_part [Byte.x01]; image_part [Byte.x02]])
              [image_part [Byte.x01]; image_part [Byte.x02]]
              0 1 [Byte.x01] [Byte.x02]
              (PyExn "OSError" "No space left on device"))
    as (s' & -> & Hf & _); try reflexivity.
  split; [reflexivity | exact Hf].
Defined.

(** ** What reaches the disk *)

Ltac case_faults_goal :=
  repeat match goal with
         | |- context [fault ?h ?op] =>
             destruct (fault h op);
             cbn [fst snd ticks files dirs trace]
         end.

(** One pass of the loop body writes the data of its image part, at
    most, or a leading piece of it when the write raises, and creates
    directories, at most. *)
Lemma save_part_disk h o i data s :
  (files (save_part o i data h s).2 = files s
   \/ exists p n,
        files (save_part o i data h s).2 = <[p := take n data]> (files s)
        /\ ((save_part o i data h s).1 = Val tt -> take n data = data))
  /\ dirs s ⊆ dirs (save_part o i data h s).2.
Proof.
  unfold save_part, default_save_path.
  destruct o as [o|]; [destruct (PyStr.nonempty o)|];
    run_monad; case_faults_goal; unfold leave_torn;
    repeat match goal with
           | |- context [torn ?h ?p] =>
               destruct (torn h p); cbn [fst snd ticks files dirs trace]
           end;
    (split;
     [first [left; reflexivity
            | right; eexists _, _; split; [reflexivity | discriminate]
            | right; eexists _, (length data); rewrite firstn_all;
              split; reflexivity]|]);
    repeat (etrans; [|apply union_subseteq_l]); reflexivity.
Qed.

Lemma save_images_disk h o parts :
  forall i c s,
    (forall p x,
       files (save_images o i parts c h s).2 !! p = Some x ->
       files s !! p = Some x
       \/ exists d n,
            In d (payloads parts) /\ x = take n d
            /\ ((exists m, (save_images o i parts c h s).1 = Val m) -> x = d))
    /\ (forall p, is_Some (files s !! p) ->
                  is_Some (files (save_images o i parts c h s).2 !! p))
    /\ dirs s ⊆ dirs (save_images o i parts c h s).2.
Proof.
  induction parts as [|p0 rest IH]; intros i c s; cbn [save_images payloads].
  - repeat split; auto.
  - destruct (inline_data p0) as [data|].
    2:{ destruct (IH (S i) c s) as (IHf & IHk & IHd).
        split; [|split; assumption].
        intros p x Hx. destruct (IHf p x Hx) as [H|H]; [left; exact H|].
        right. exact H. }
    unfold bind.
    destruct (save_part_disk h o i data s) as [Hfiles Hdirs].
    destruct (save_part o i data h s) as [[[]|e] s1]; cbn [fst snd] in *.
    + destruct (IH (S i) (S c) s1) as (IHf & IHk & IHd).
      split; [|split].
      * intros p x Hx.
        destruct (IHf p x Hx) as [H1|(d & n & Hin & Hx' & Hall)].
        2:{ right. exists d, n. split; [right; exact Hin|]. split; assumption. }
        destruct Hfiles as [Heq|(q & n & Heq & Hall)]; rewrite Heq in H1;
          [left; exact H1|].
        destruct (decide (q = p)) as [->|Hne].
        -- rewrite lookup_insert_eq in H1. injection H1 as <-.
           right. exists data, n. split; [left; reflexivity|].
           split; [reflexivity|]. intros _. apply Hall. reflexivity.
        -- rewrite lookup_insert_ne in H1 by exact Hne. left. exact H1.
      * intros p Hp. apply IHk.
        destruct Hfiles as [Heq|(q & n & Heq & _)]; rewrite Heq; [exact Hp|].
        destruct (decide (q = p)) as [->|Hne].
        -- rewrite lookup_insert_eq. eauto.
        -- rewrite lookup_insert_ne by exact Hne. exact Hp.
      * etrans; [exact Hdirs | exact IHd].
    + split; [|split].
      * intros p x Hx.
        destruct Hfiles as [Heq|(q & n & Heq & _)]; rewrite Heq in Hx;
          [left; exact Hx|].
        destruct (decide (q = p)) as [->|Hne].
        -- rewrite lookup_insert_eq in Hx. injection Hx as <-.
           right. exists data, n. split; [left; reflexivity|].
           split; [reflexivity|]. intros (m & [=]).
        -- rewrite lookup_insert_ne in Hx by exact Hne. left. exact Hx.
      * intros p Hp.
        destruct Hfiles as [Heq|(q & n & Heq & _)]; rewrite Heq; [exact Hp|].
        destruct (decide (q = p)) as [->|Hne].
        -- rewrite lookup_insert_eq. eauto.
        -- rewrite lookup_insert_ne by exact Hne. exact Hp.
      * exact Hdirs.
Qed.

(** X10: whatever the service answers, whether or not text was asked
    for and whatever fails on the disk, a call of [generate_image]
    leaves in every file either what the file held before, or data of
    an image part of the first candidate: all of it when the call
    returns [True], a leading piece of it (possibly nothing) where the
    write raised.  So no text and no other data is ever written; and the
    call removes no file and no directory. *)
Theorem only_image_data_is_written (h : host) (s : state)
    (prompt key : string) (it : bool) (o : option string) (model : string) :
  (forall p x,
     files (generate_image prompt key it o model h s).2 !! p = Some x ->
     files s !! p = Some x
     \/ exists r parts d n,
          service h (request_of prompt key it model) = Val r
          /\ first_parts r = Some parts
          /\ In d (payloads parts)
          /\ x = take n d
          /\ ((generate_image prompt key it o model h s).1 = Val true -> x = d))
  /\ (forall p, is_Some (files s !! p) ->
                is_Some (files (generate_image prompt key it o model h s).2 !! p))
  /\ dirs s ⊆ dirs (generate_image prompt key it o model h s).2.
Proof.
  destruct (service h (request_of prompt key it model)) as [r|e] eqn:Hsvc.
  2:{ rewrite (generate_image_service_error _ _ _ _ _ _ _ _ Hsvc). cbn [snd extend files dirs].
      repeat split; auto. }
  destruct (first_parts r) as [parts|] eqn:Hparts.
  2:{ rewrite generate_image_wrap, (generate_body_exact _ _ _ _ _ _ _ _ Hsvc).
      cbn zeta. unfold first_parts in Hparts.
      destruct (candidates r) as [[|cand cs]|]; try discriminate;
        rewrite ?Hparts; cbn [snd extend files dirs]; repeat split; auto. }
  rewrite (generate_image_from_loop _ _ _ _ _ _ _ _ _ Hsvc Hparts).
  destruct (save_images_disk h o parts 0 0
              (extend s (opening_events prompt key it model)))
    as (Hf & Hk & Hd).
  destruct (save_images o 0 parts 0 h _) as [[n|e] s2];
    cbn [fst snd extend files dirs] in *.
  - split; [|split; [exact Hk | exact Hd]].
    intros p x Hx. destruct (Hf p x Hx) as [H|(d & m & Hin & Hx' & Hall)];
      [left; exact H|].
    right. exists r, parts, d, m. repeat split; eauto.
  - split; [|split; [exact Hk | exact Hd]].
    intros p x Hx. destruct (Hf p x Hx) as [H|(d & m & Hin & Hx' & Hall)];
      [left; exact H|].
    right. exists r, parts, d, m. repeat split; try assumption. discriminate.
Qed.

(** The second of two writes raises after the file was opened: the
    first file holds its image, the second one is there and empty. *)
Lemma only_image_data_is_written_witness :
  files (generate_image "a cat" "key" false None "model"
           host_second_write_fails fresh).2
    !! PyPath.Path "docs/assets/gemini-20250102-120000-1.png" = Some []
  /\ exists d n, In d [[Byte.x01]; [Byte.x02]] /\ [] = take n d.
Proof.
  assert (Hfile : files (generate_image "a cat" "key" false None "model"
                           host_second_write_fails fresh).2
                    !! PyPath.Path "docs/assets/gemini-20250102-120000-1.png"
                  = Some []) by (vm_compute; reflexivity).
  split; [exact Hfile|].
  destruct (only_image_data_is_written host_second_write_fails fresh
              "a cat" "key" false None "model") as (Hdata & _ & _).
  destruct (Hdata _ _ Hfile) as [Hold|(r & parts & d & n & Hsvc & Hparts & Hin & Hx & _)].
  - discriminate Hold.
  - injection Hsvc as <-. injection Hparts as <-. exists d, n. split; assumption.
Defined.


(** ** Default destinations within one response *)

Lemma default_destination_shape h o :
  explicit_path o = None ->
  forall parts i t p,
    In p (map fst (destinations h o t (images_from i parts))) ->
    exists ts j, p = PyPath.div assets_dir (default_name ts j) /\ i <= j.
Proof.
  intros Ho. induction parts as [|p0 rest IH]; intros i t p; cbn [images_from].
  - contradiction.
  - destruct (inline_data p0) as [data|].
    + cbn [destinations]. rewrite Ho. cbn [map fst]. intros [<-|Hin].
      * eexists _, i. split; [reflexivity | lia].
      * destruct (IH _ _ _ Hin) as (ts & j & -> & Hle).
        exists ts, j. split; [reflexivity | lia].
    + intros Hin. destruct (IH _ _ _ Hin) as (ts & j & -> & Hle).
      exists ts, j. split; [reflexivity | lia].
Qed.

Lemma default_destinations_NoDup h o :
  explicit_path o = None ->
  forall parts i t,
    NoDup (map fst (destinations h o t (images_from i parts))).
Proof.
  intros Ho. induction parts as [|p0 rest IH]; intros i t; cbn [images_from].
  - constructor.
  - destruct (inline_data p0) as [data|]; [|apply IH].
    cbn [destinations]. rewrite Ho. cbn [map fst].
    apply NoDup_cons. split; [|apply IH].
    intros Hin%list_elem_of_In.
    destruct (default_destination_shape h o Ho _ _ _ _ Hin) as (ts & j & Heq & Hle).
    apply div_inj, default_name_index_inj in Heq. lia.
Qed.

Lemma insert_all_other (ws : list (path * bytes)) :
  forall (m : gmap path bytes) p,
    ~ In p (map fst ws) ->
    fold_left (fun m w => <[w.1 := w.2]> m) ws m !! p = m !! p.
Proof.
  induction ws as [|[q d] ws IH]; intros m p Hp; [reflexivity|].
  cbn [fold_left fst snd]. rewrite IH.
  - apply lookup_insert_ne. intros ->. apply Hp. left. reflexivity.
  - intros Hin. apply Hp. right. exact Hin.
Qed.

Lemma insert_all_distinct (ws : list (path * bytes)) :
  NoDup (map fst ws) ->
  forall (m : gmap path bytes) p d,
    In (p, d) ws ->
    fold_left (fun m w => <[w.1 := w.2]> m) ws m !! p = Some d.
Proof.
  induction ws as [|[q x] ws IH]; intros Hnd m p d; [contradiction|].
  cbn [map fst] in Hnd. apply NoDup_cons in Hnd. destruct Hnd as [Hq Hnd].
  cbn [fold_left fst snd]. intros [[= -> ->]|Hin].
  - rewrite insert_all_other; [apply lookup_insert_eq|].
    intros Hin. apply Hq, list_elem_of_In, Hin.
  - apply IH; assumption.
Qed.

Lemma destinations_payloads h o parts :
  forall i t, map snd (destinations h o t (images_from i parts)) = payloads parts.
Proof.
  induction parts as [|p0 rest IH]; intros i t; cbn [images_from payloads];
    [reflexivity|].
  destruct (inline_data p0); [|apply IH].
  cbn [destinations]. destruct (explicit_path o); cbn [map snd]; rewrite IH;
    reflexivity.
Qed.

(** X11: without an explicit output path the image parts of one
    response never share a destination, however many they are and
    whatever the clock reads, so no image overwrites another; when no
    disk operation fails, each image part ends up in its own file,
    which holds exactly its data. *)
Theorem default_destinations_are_distinct (h : host) (s : state)
    (prompt key : string) (it : bool) (o : option string) (model : string)
    (r : response) (parts : list part) :
  explicit_path o = None ->
  fault_free h ->
  service h (request_of prompt key it model) = Val r ->
  first_parts r = Some parts ->
  NoDup (map fst (destinations h o (ticks s) (images parts)))
  /\ map snd (destinations h o (ticks s) (images parts)) = payloads parts
  /\ (forall p d,
        In (p, d) (destinations h o (ticks s) (images parts)) ->
        PyPath.parent p = assets_dir
        /\ files (generate_image prompt key it o model h s).2 !! p = Some d).
Proof.
  intros Ho Hff Hsvc Hparts.
  pose proof (default_destinations_NoDup h o Ho parts 0 (ticks s)) as Hnd.
  fold (images parts) in Hnd.
  split; [exact Hnd|]. split.
  - apply destinations_payloads.
  - intros p d Hin. split.
    + assert (Hp : In p (map fst (destinations h o (ticks s) (images_from 0 parts))))
        by (apply in_map_iff; exists (p, d); split; [reflexivity | exact Hin]).
      destruct (default_destination_shape h o Ho _ _ _ _ Hp) as (ts & j & -> & _).
      reflexivity.
    + rewrite (generate_image_ok _ _ _ _ _ _ _ _ _ Hff Hsvc Hparts). cbn [snd].
      rewrite files_replay, writes_generation.
      apply insert_all_distinct; assumption.
Qed.

(** A caption and two image parts: two files, each with its own data. *)
Lemma default_destinations_are_distinct_witness :
  files (generate_image "a cat" "key" false None "model"
           host_text_then_two_images fresh).2
    !! PyPath.Path "docs/assets/gemini-20250102-120000-1.png" = Some [Byte.x01]
  /\ files (generate_image "a cat" "key" false None "model"
              host_text_then_two_images fresh).2
       !! PyPath.Path "docs/assets/gemini-20250102-120000-2.png" = Some [Byte.x02].
Proof.
  destruct (default_destinations_are_distinct host_text_then_two_images fresh
              "a cat" "key" false None "model"
              (response_of [text_part "caption"; image_part [Byte.x01];
                            image_part [Byte.x02]])
              [text_part "caption"; image_part [Byte.x01]; image_part [Byte.x02]])
    as (_ & _ & H); try reflexivity.
  - intros op. reflexivity.
  - split.
    + apply (H _ [Byte.x01]). left. reflexivity.
    + apply (H _ [Byte.x02]). right. left. reflexivity.
Defined.

(** ** Directories *)

Lemma ancestors_created evs s q a :
  In q (mkdirs evs) -> In a (PyPath.ancestors q) -> a ∈ dirs (replay evs s).
Proof.
  rewrite dirs_replay. generalize (dirs s) as ds.
  induction (mkdirs evs) as [|q0 qs IH]; intros ds; [contradiction|].
  cbn [fold_left]. intros [->|Hin] Ha; [|apply IH; assumption].
  apply created_dirs_keep, elem_of_union. right.
  apply elem_of_list_to_set, list_elem_of_In, Ha.
Qed.

Lemma mkdirs_save_events h o imgs :
  forall t p d,
    In (p, d) (destinations h o t imgs) ->
    In (PyPath.parent p) (mkdirs (save_events h o t imgs)).
Proof.
  induction imgs as [|[i x] rest IH]; intros t p d; [contradiction|].
  cbn [destinations save_events].
  destruct (explicit_path o) as [q|]; rewrite !mkdirs_app.
  - intros [[= <- <-]|Hin].
    + apply in_or_app. left. left. reflexivity.
    + apply in_or_app. right. exact (IH _ _ _ Hin).
  - intros [[= <- <-]|Hin].
    + apply in_or_app. right. apply in_or_app. left. left. reflexivity.
    + apply in_or_app. right. apply in_or_app. right. exact (IH _ _ _ Hin).
Qed.

(** X16: when no disk operation fails, the directory of every file
    written, and every directory above it, exists after the call: the
    parents of an explicit output path as well as the assets
    directory. *)
Theorem parent_directories_are_created (h : host) (s : state)
    (prompt key : string) (it : bool) (o : option string) (model : string)
    (r : response) (parts : list part) :
  fault_free h ->
  service h (request_of prompt key it model) = Val r ->
  first_parts r = Some parts ->
  forall p d a,
    In (p, d) (destinations h o (ticks s) (images parts)) ->
    In a (PyPath.ancestors (PyPath.parent p)) ->
    a ∈ dirs (generate_image prompt key it o model h s).2.
Proof.
  intros Hff Hsvc Hparts p d a Hin Ha.
  rewrite (generate_image_ok _ _ _ _ _ _ _ _ _ Hff Hsvc Hparts). cbn [snd].
  apply (ancestors_created _ _ (PyPath.parent p)); [|exact Ha].
  rewrite !mkdirs_app. apply in_or_app. right. apply in_or_app. left.
  exact (mkdirs_save_events _ _ _ _ _ _ Hin).
Qed.

(** [--output out/cats/cat.png]: [out] and [out/cats] exist afterwards. *)
Lemma parent_directories_are_created_witness :
  PyPath.Path "out" ∈ dirs (generate_image "a cat" "key" false
                              (Some "out/cats/cat.png") "model"
                              host_one_image fresh).2
  /\ PyPath.Path "out/cats" ∈ dirs (generate_image "a cat" "key" false
                                      (Some "out/cats/cat.png") "model"
                                      host_one_image fresh).2.
Proof.
  pose proof (parent_directories_are_created host_one_image fresh "a cat" "key"
                false (Some "out/cats/cat.png") "model"
                (response_of [image_part [Byte.x01]]) [image_part [Byte.x01]]
                (fun op => eq_refl) eq_refl eq_refl
                (PyPath.Path "out/cats/cat.png") [Byte.x01]) as H.
  split; apply H; cbn; auto.
Defined.

(** ** The text display *)

Lemma text_output_app evs1 evs2 :
  text_output (evs1 ++ evs2) = text_output evs1 ++ text_output evs2.
Proof.
  unfold text_output, printed. rewrite List.flat_map_app, List.filter_app.
  reflexivity.
Qed.

Lemma text_output_save_events h o imgs :
  forall t, text_output (save_events h o t imgs) = [].
Proof.
  induction imgs as [|[i d] rest IH]; intros t; [reflexivity|].
  cbn [save_events]. destruct (explicit_path o) as [q|];
    rewrite !text_output_app, IH; reflexivity.
Qed.

Lemma text_output_texts ts :
  text_output (map (fun t => EPrint (MsgText t)) ts) = map MsgText ts.
Proof.
  induction ts as [|t ts IH]; [reflexivity|].
  unfold text_output, printed in *. cbn in *. f_equal. exact IH.
Qed.

Lemma text_parts_filter parts :
  map Some (text_parts parts) = List.filter PyStr.truthy (map text parts).
Proof.
  induction parts as [|p rest IH]; [reflexivity|].
  unfold text_parts in *. cbn [flat_map map List.filter].
  destruct (text p) as [t|]; cbn [PyStr.truthy].
  - destruct (PyStr.nonempty t); cbn [app map]; rewrite IH; reflexivity.
  - cbn [app]. exact IH.
Qed.

(** X12: with [include_text] set, when no disk operation fails, the
    generated text is shown once all images are saved and just before
    the closing line: a header followed by the texts of the parts in
    their order, leaving out the parts without text and those whose
    text is empty; with no text to show, not even the header is
    printed. *)
Theorem text_is_shown_in_order (h : host) (s : state)
    (prompt key : string) (o : option string) (model : string)
    (r : response) (parts : list part) :
  fault_free h ->
  service h (request_of prompt key true model) = Val r ->
  first_parts r = Some parts ->
  exists before,
    snd (generate_image prompt key true o model h s)
      = replay (before ++ text_events true parts
                ++ [closing_event (length (images parts))]) s
    /\ writes before = destinations h o (ticks s) (images parts)
    /\ text_output before = []
    /\ text_output (text_events true parts)
       = match text_parts parts with
         | [] => []
         | ts => MsgTextHeader :: map MsgText ts
         end
    /\ map Some (text_parts parts)
       = List.filter PyStr.truthy (map text parts).
Proof.
  intros Hff Hsvc Hparts.
  exists (opening_events prompt key true model
          ++ save_events h o (ticks s) (images parts)).
  rewrite (generate_image_ok _ _ _ _ _ _ _ _ _ Hff Hsvc Hparts). cbn [snd].
  split; [rewrite <- !app_assoc; reflexivity|].
  split; [rewrite writes_app, writes_save_events; reflexivity|].
  split; [rewrite text_output_app, text_output_save_events; reflexivity|].
  split; [|apply text_parts_filter].
  unfold text_events. destruct (text_parts parts) as [|t ts]; [reflexivity|].
  change (text_output (EPrint MsgTextHeader :: map (fun t => EPrint (MsgText t)) (t :: ts)))
    with (MsgTextHeader :: text_output (map (fun t => EPrint (MsgText t)) (t :: ts))).
  rewrite text_output_texts. reflexivity.
Qed.

(** Two captions around an image and an empty text: the header and the
    two captions, in order. *)
Lemma text_is_shown_in_order_witness :
  text_output (trace (snd (generate_image "a cat" "key" true None "model"
                             host_captions fresh)))
    = [MsgTextHeader; MsgText "first"; MsgText "second"].
Proof.
  destruct (text_is_shown_in_order host_captions fresh "a cat" "key" None "model"
              (response_of [text_part "first"; image_part [Byte.x01];
                            text_part ""; text_part "second"])
              [text_part "first"; image_part [Byte.x01];
               text_part ""; text_part "second"])
    as (before & -> & _ & Hbefore & Htext & _); try reflexivity.
  - intros op. reflexivity.
  - rewrite trace_replay. cbn [fresh trace app].
    rewrite !text_output_app, Hbefore, Htext. reflexivity.
Defined.

(** ** The text flag and what is saved *)

Lemma save_part_same_disk h o i data s s' :
  same_disk_state s s' ->
  fst (save_part o i data h s) = fst (save_part o i data h s')
  /\ same_disk_state (save_part o i data h s).2 (save_part o i data h s').2.
Proof.
  intros (Ht & Hf & Hd). destruct s as [t f d tr], s' as [t' f' d' tr'].
  cbn in Ht, Hf, Hd. subst t' f' d'.
  unfold save_part, default_save_path, same_disk_state.
  destruct o as [o|]; [destruct (PyStr.nonempty o)|];
    run_monad; case_faults_goal; unfold leave_torn;
    repeat match goal with
           | |- context [torn ?h ?p] =>
               destruct (torn h p); cbn [fst snd ticks files dirs trace put_file]
           end;
    repeat split.
Qed.

Lemma save_images_same_disk h o parts :
  forall i c s s',
    same_disk_state s s' ->
    fst (save_images o i parts c h s) = fst (save_images o i parts c h s')
    /\ same_disk_state (save_images o i parts c h s).2
                       (save_images o i parts c h s').2.
Proof.
  induction parts as [|p rest IH]; intros i c s s' Hsame; cbn [save_images].
  - split; [reflexivity | exact Hsame].
  - destruct (inline_data p) as [data|]; [|apply IH, Hsame].
    unfold bind.
    destruct (save_part_same_disk h o i data s s' Hsame) as [Hres Hdisk].
    destruct (save_part o i data h s) as [[[]|e] s1],
             (save_part o i data h s') as [[[]|e'] s1'];
      cbn [fst snd] in *; try discriminate Hres.
    + apply IH, Hdisk.
    + injection Hres as <-. split; [reflexivity | exact Hdisk].
Qed.

(** X15: the text flag changes what is asked for and what is printed,
    not what is saved: if the service gives the same answer with and
    without text requested, the two calls return the same result and
    leave the same files and directories, whatever fails on the
    disk. *)
Theorem text_flag_does_not_change_files (h : host) (s : state)
    (prompt key : string) (o : option string) (model : string)
    (r : response) :
  service h (request_of prompt key true model) = Val r ->
  service h (request_of prompt key false model) = Val r ->
  fst (generate_image prompt key true o model h s)
    = fst (generate_image prompt key false o model h s)
  /\ same_disk_state (generate_image prompt key true o model h s).2
                     (generate_image prompt key false o model h s).2.
Proof.
  intros Htrue Hfalse.
  destruct (first_parts r) as [parts|] eqn:Hparts.
  - rewrite (generate_image_from_loop _ _ _ _ _ _ _ _ _ Htrue Hparts).
    rewrite (generate_image_from_loop _ _ _ _ _ _ _ _ _ Hfalse Hparts).
    destruct (save_images_same_disk h o parts 0 0
                (extend s (opening_events prompt key true model))
                (extend s (opening_events prompt key false model)))
      as [Hres Hdisk]; [repeat split|].
    destruct (save_images o 0 parts 0 h (extend s (opening_events prompt key true model)))
      as [[n|e] s2],
      (save_images o 0 parts 0 h (extend s (opening_events prompt key false model)))
      as [[n'|e'] s2']; cbn [fst snd] in *; try discriminate Hres.
    + injection Hres as <-. split; [reflexivity | exact Hdisk].
    + split; [reflexivity | exact Hdisk].
  - rewrite !generate_image_wrap.
    rewrite (generate_body_exact _ _ _ _ _ _ _ _ Htrue).
    rewrite (generate_body_exact _ _ _ _ _ _ _ _ Hfalse).
    cbn zeta. unfold first_parts in Hparts.
    destruct (candidates r) as [[|cand cs]|]; try discriminate;
      rewrite ?Hparts; cbn [fst snd]; repeat split.
Qed.

(** The same two images with and without text asked for: the same
    files. *)
Lemma text_flag_does_not_change_files_witness :
  files (generate_image "a cat" "key" true None "model" host_ready fresh).2
    = files (generate_image "a cat" "key" false None "model" host_ready fresh).2.
Proof.
  destruct (text_flag_does_not_change_files host_ready fresh "a cat" "key" None
              "model"
              (response_of [text_part "caption"; image_part [Byte.x01];
                            image_part [Byte.x02]]))
    as (_ & _ & Hf & _); [reflexivity | reflexivity | exact Hf].
Defined.
